(** * clean_logs.py: line classifier and file pass

    A shallow embedding of [src/clean_logs.py].  A Python [str] is a
    sequence of Unicode code points, so a line is a [list N]; the delete
    marker [None] of [clean_logger_line] is the [None] of [option].  The two
    library calls the script relies on, the substring test [x in line] and
    [re.sub] for the three patterns the script builds, are embedded as the
    executable functions [contains] and [re_sub].  The files are texts:
    [readlines] and [writelines] say what [clean_file] reads from the one and
    writes to the other. *)

From Stdlib Require Import NArith String Ascii Lia.
From stdpp Require Import list relations.
From Equations Require Import Equations.

Local Open Scope nat_scope.
Local Open Scope list_scope.

(** ** Strings *)

Abbreviation str := (list N).

(** An ASCII literal of the script, as code points. *)
Definition lit (s : string) : str := map N_of_ascii (list_ascii_of_string s).

(** [starts_with p l]: [l[:len(p)] == p]. *)
Fixpoint starts_with (p l : str) : bool :=
  match p, l with
  | [], _ => true
  | _ :: _, [] => false
  | a :: p', b :: l' => N.eqb a b && starts_with p' l'
  end.

(** [contains p l]: Python's [p in l] on strings, a match of [p] at some
    offset of [l]. *)
Fixpoint contains (p l : str) : bool :=
  starts_with p l || match l with [] => false | _ :: l' => contains p l' end.

(** ** The constants of [clean_logger_line] *)

(** The list [emojis], in source order.  Every entry is one code point but
    the sixth, a warning sign followed by the variation selector U+FE0F. *)
Definition emojis : list str :=
  [ [0x1F3AF%N]; [0x2705%N]; [0x1F4CA%N]; [0x1F4CB%N]; [0x1F4ED%N];
    [0x26A0%N; 0xFE0F%N]; [0x274C%N]; [0x1F50D%N]; [0x1F9EA%N]; [0x1F513%N];
    [0x1F4E6%N]; [0x1F511%N]; [0x1F517%N]; [0x1F4C5%N]; [0x1F3E5%N];
    [0x1F3E2%N]; [0x1F331%N]; [0x1F464%N]; [0x1F4C4%N]; [0x1F310%N];
    [0x2795%N] ].

Definition logger_info : str := lit "logger.info".
Definition logger_error : str := lit "logger.error".
Definition logger_warn : str := lit "logger.warn".
Definition triple_eq : str := lit "===".

(** The three quoting delimiters of the patterns: backtick, single quote,
    double quote. *)
Definition backtick : N := 96%N.
Definition squote : N := 39%N.
Definition dquote : N := 34%N.

(** ** The regular expression calls *)

(** [\s] of a Python 3 [str] pattern: the code points for which
    [str.isspace] holds. *)
Definition isspace (c : N) : bool :=
  ((9 <=? c) && (c <=? 13) || (28 <=? c) && (c <=? 32) || (c =? 0x85)
   || (c =? 0xA0) || (c =? 0x1680) || (0x2000 <=? c) && (c <=? 0x200A)
   || (c =? 0x2028) || (c =? 0x2029) || (c =? 0x202F) || (c =? 0x205F)
   || (c =? 0x3000))%N.

(** Length of the longest run of whitespace at the head of [l]: what the
    greedy [\s+] consumes. *)
Fixpoint ws_run (l : str) : nat :=
  match l with
  | c :: l' => if isspace c then S (ws_run l') else 0
  | [] => 0
  end.

(** [match_at d emoji s]: the pattern [(d emoji \s+)], a literal delimiter,
    the emoji and one or more whitespace characters, tried at the head of
    [s].  The f-string pastes the emoji into the pattern as it is; no code
    point of the list is special in a regular expression, so it stands for
    itself.  [Some n] says the pattern matches the first character and the
    [n] that follow; it has no alternative, and the greedy [\s+] is last, so
    the match at a position is unique. *)
Definition match_at (d : N) (emoji : str) (s : str) : option nat :=
  match s with
  | [] => None
  | c :: rest =>
      if N.eqb c d && starts_with emoji rest
         && (0 <? ws_run (drop (length emoji) rest))
      then Some (length emoji + ws_run (drop (length emoji) rest))
      else None
  end.

(** [re_sub d emoji repl line]: [re.sub(pattern, repl, line)] for the pattern
    [(d emoji \s+)] and a replacement without escapes.  The scan goes left
    to right; a match is replaced by [repl] and the scan resumes after it,
    an unmatched character is copied. *)
Equations? re_sub (d : N) (emoji repl line : str) : str by wf (length line) lt :=
  re_sub d emoji repl [] := [];
  re_sub d emoji repl (c :: rest) with match_at d emoji (c :: rest) := {
    | Some n := repl ++ re_sub d emoji repl (drop n rest);
    | None := c :: re_sub d emoji repl rest }.
Proof. rewrite length_drop. simpl. lia. Qed.

(** The body of the [for emoji in emojis] loop: three substitutions, one
    per delimiter, each on the result of the one before. *)
Definition strip_emoji (line emoji : str) : str :=
  let line := re_sub backtick emoji [backtick] line in
  let line := re_sub squote emoji [squote] line in
  re_sub dquote emoji [dquote] line.

(** ** [clean_logger_line] *)

(** The first [if] block: [true] when one of its two [return None] is
    reached. *)
Definition info_rule (line : str) : bool :=
  if contains logger_info line
  then if contains triple_eq line then true
       else existsb (fun emoji => contains emoji line) emojis
  else false.

(** The second [if] block and the value of [line] after it. *)
Definition strip_rule (line : str) : str :=
  if contains logger_error line || contains logger_warn line
  then fold_left strip_emoji emojis line
  else line.

Definition clean_logger_line (line : str) : option str :=
  if info_rule line then None else Some (strip_rule line).

(** ** [clean_file] *)

(** The two locals of the loop of [clean_file]. *)
Record pass := mk_pass { cleaned_lines : list str; removed_count : nat }.

(** One iteration of [for line in lines]. *)
Definition clean_step (st : pass) (line : str) : pass :=
  match clean_logger_line line with
  | None => mk_pass (cleaned_lines st) (removed_count st + 1)
  | Some cleaned => mk_pass (cleaned_lines st ++ [cleaned]) (removed_count st)
  end.

(** [clean_file] from the list [f.readlines()] returns to the list handed to
    [f.writelines] and the count that is printed. *)
Definition clean_file (lines : list str) : pass :=
  fold_left clean_step lines (mk_pass [] 0).

(** The lines of an input for which the classifier returns the delete
    marker. *)
Definition is_deleted (line : str) : bool :=
  match clean_logger_line line with None => true | Some _ => false end.

Definition deleted (lines : list str) : nat :=
  length (List.filter is_deleted lines).

(** ** The rewriting of warn and error lines, as specified

    The specification describes the second block of [clean_logger_line] as
    one removal: every configured emoji with the whitespace after it goes
    when it stands directly behind a backtick, a single quote or a double
    quote; the delimiter stays and nothing else changes.  The definitions
    below say this without the loop of the source. *)

Definition delimiters : list N := [backtick; squote; dquote].

Definition is_delimiter (c : N) : bool := existsb (N.eqb c) delimiters.

(** A string without delimiter. *)
Definition nodelim (x : str) : bool := forallb (fun a => negb (is_delimiter a)) x.

(** The (delimiter, emoji) pairs, in the order in which the loop of the source
    builds their patterns. *)
Definition passes : list (N * str) :=
  flat_map (fun emoji => [(backtick, emoji); (squote, emoji); (dquote, emoji)])
           emojis.

(** [anchored ps s]: the extent of the first pattern of [ps] that matches at
    the head of [s]. *)
Fixpoint anchored (ps : list (N * str)) (s : str) : option nat :=
  match ps with
  | [] => None
  | (d, emoji) :: ps' =>
      match match_at d emoji s with
      | Some n => Some n
      | None => anchored ps' s
      end
  end.

(** [strip_by ps line]: one scan of [line] that, wherever a pattern of [ps]
    matches, keeps the delimiter and drops the emoji and the whitespace. *)
Equations? strip_by (ps : list (N * str)) (line : str) : str
  by wf (length line) lt :=
  strip_by ps [] := [];
  strip_by ps (c :: rest) with anchored ps (c :: rest) := {
    | Some n := c :: strip_by ps (drop n rest);
    | None := c :: strip_by ps rest }.
Proof. rewrite length_drop. simpl. lia. Qed.

(** The specified rewriting: one scan for all delimiters and emojis at once. *)
Definition strip_spec (line : str) : str := strip_by passes line.

(** One removal: an emoji of the list and the whole run of whitespace after
    it, directly behind a delimiter. *)
Inductive strip_step : str -> str -> Prop :=
| strip_step_at (pre : str) (d : N) (emoji ws post : str) :
    In d delimiters -> In emoji emojis ->
    ws <> [] -> forallb isspace ws = true -> ws_run post = 0 ->
    strip_step (pre ++ d :: emoji ++ ws ++ post) (pre ++ d :: post).

(** [emoji_ws s]: [s] begins with a configured emoji and a whitespace. *)
Definition emoji_ws (s : str) : bool :=
  existsb (fun emoji =>
             starts_with emoji s && (0 <? ws_run (drop (length emoji) s)))
          emojis.

(** [stacked line]: somewhere in [line] a delimiter is followed by an emoji
    and whitespace, and these directly by an emoji and whitespace again. *)
Fixpoint stacked (line : str) : bool :=
  match line with
  | [] => false
  | c :: rest =>
      existsb (fun '(d, emoji) =>
                 match match_at d emoji (c :: rest) with
                 | Some n => emoji_ws (drop n rest)
                 | None => false
                 end) passes
      || stacked rest
  end.

(** ** Sample lines *)

Definition cross_mark : str := [0x274C%N].
Definition warning_sign : str := [0x26A0%N; 0xFE0F%N].

(** [logger.error('X Something failed');] with the cross mark U+274C for X. *)
Definition error_line : str :=
  lit "logger.error('" ++ cross_mark ++ lit " Something failed');".

(** [logger.warn('W X Validation failed');] with the warning sign for W and
    the cross mark for X: two stacked prefixes, in the order of the list. *)
Definition stacked_warn_line : str :=
  lit "logger.warn('" ++ warning_sign ++ lit " " ++ cross_mark
  ++ lit " Validation failed');".

(** [logger.error('X W Retry failed');]: two stacked prefixes, against the
    order of the list. *)
Definition stacked_error_line : str :=
  lit "logger.error('" ++ cross_mark ++ lit " " ++ warning_sign
  ++ lit " Retry failed');".

(** A line of the info rule that also logs a warning. *)
Definition info_warn_line : str :=
  lit "logger.info('=== sync ==='); logger.warn('slow');".

(** ** Further notions about lines *)

(** [has_emoji_prefix line]: at some position of [line] one of the patterns
    of the loop matches: a delimiter, then an emoji of the list, then
    whitespace. *)
Fixpoint has_emoji_prefix (line : str) : bool :=
  match line with
  | [] => false
  | c :: rest =>
      match anchored passes (c :: rest) with Some _ => true | None => false end
      || has_emoji_prefix rest
  end.

(** [emoji_char c]: [c] is a code point of some entry of [emojis]. *)
Definition emoji_char (c : N) : bool :=
  existsb (fun emoji => existsb (N.eqb c) emoji) emojis.

(** The characters no pattern can consume: neither whitespace nor a code
    point of an emoji. *)
Definition plain_char (c : N) : bool := negb (isspace c || emoji_char c).

(** One of the three tests of [clean_logger_line] on the logger call holds. *)
Definition marked (line : str) : bool :=
  contains logger_info line || contains logger_error line
  || contains logger_warn line.

(** [reclean n line]: the classifier run [n] times, each run on the result of
    the one before; [None] once a run deletes the line. *)
Fixpoint reclean (n : nat) (line : str) : option str :=
  match n with
  | 0 => Some line
  | S n' =>
      match clean_logger_line line with
      | Some out => reclean n' out
      | None => None
      end
  end.

(** ** The file as text

    [clean_file] opens both files in text mode with the default newline
    handling.  On reading, every line end of the file, be it a line feed, a
    carriage return or the two in a row, arrives as one line feed, and
    [readlines] cuts the text behind each line feed.  [writelines] writes
    the strings one after the other with nothing in between; the line feeds
    go to the file as the line end of the platform, and come back as line
    feeds when the file is read again. *)

Definition line_feed : N := 10%N.
Definition carriage_return : N := 13%N.

(** The newline translation of a text that is read. *)
Fixpoint universal (text : str) : str :=
  match text with
  | [] => []
  | c :: t =>
      if N.eqb c carriage_return
      then line_feed ::
           match t with
           | [] => []
           | d :: t' => if N.eqb d line_feed then universal t' else universal t
           end
      else c :: universal t
  end.

(** A text cut behind each line feed; the last piece has none when the text
    does not end in one. *)
Fixpoint split_lines (text : str) : list str :=
  match text with
  | [] => []
  | c :: t =>
      if N.eqb c line_feed then [c] :: split_lines t
      else match split_lines t with
           | [] => [[c]]
           | l :: ls => (c :: l) :: ls
           end
  end.

(** [f.readlines()] on the content [raw] of the file. *)
Definition readlines (raw : str) : list str := split_lines (universal raw).

(** The text [f.writelines(ls)] writes. *)
Definition writelines (ls : list str) : str := concat ls.

Definition lf_count (l : str) : nat := length (List.filter (N.eqb line_feed) l).

(** [ends_lf l]: [l] ends in a line feed. *)
Definition ends_lf (l : str) : bool :=
  match last l with
  | Some c => N.eqb c line_feed
  | None => false
  end.

(** A line with its line feed, and a last line without one. *)
Definition full_line (l : str) : bool := ends_lf l && (lf_count l =? 1).
Definition part_line (l : str) : bool :=
  match l with [] => false | _ :: _ => lf_count l =? 0 end.

(** [lines_ok ls]: [ls] is a text in lines: each element ends in its only line
    feed, but the last, which may have none. *)
Fixpoint lines_ok (ls : list str) : bool :=
  match ls with
  | [] => true
  | l :: ls' =>
      (full_line l || part_line l && match ls' with [] => true | _ => false end)
      && lines_ok ls'
  end.

(** [keeps_line_feed line]: the classifier deletes [line], or returns a
    string that ends in a line feed exactly when [line] does. *)
Definition keeps_line_feed (line : str) : bool :=
  match clean_logger_line line with
  | Some out => Bool.eqb (ends_lf out) (ends_lf line)
  | None => true
  end.


(** * Properties *)

(** The text after a match, and the text after a character, are shorter. *)
Ltac shorter := rewrite ?length_drop, ?length_app; simpl; lia.

(** ** Substring tests *)

Lemma starts_with_spec (p l : str) :
  starts_with p l = true <-> exists r, l = p ++ r.
Proof.
  revert l. induction p as [|a p IH]; intros l; simpl.
  - split; [intros _; exists l; reflexivity | reflexivity].
  - destruct l as [|b l].
    + split; [discriminate | intros [r Hr]; discriminate].
    + rewrite andb_true_iff, N.eqb_eq, IH. split.
      * intros [-> [r ->]]. exists r. reflexivity.
      * intros [r Hr]. injection Hr as -> ->. split; [reflexivity | exists r; reflexivity].
Qed.

Lemma contains_spec (p l : str) :
  contains p l = true <-> exists a b, l = a ++ p ++ b.
Proof.
  induction l as [|c l IH].
  - simpl. rewrite orb_false_r, starts_with_spec. split.
    + intros [r Hr]. exists [], r. exact Hr.
    + intros [a [b Hab]]. destruct a; [exists b; exact Hab | discriminate].
  - cbn [contains]. rewrite orb_true_iff, starts_with_spec, IH. split.
    + intros [[r Hr] | [a [b Hab]]].
      * exists [], r. exact Hr.
      * exists (c :: a), b. rewrite Hab. reflexivity.
    + intros [a [b Hab]]. destruct a as [|c' a].
      * left. exists b. exact Hab.
      * right. injection Hab as _ ->. exists a, b. reflexivity.
Qed.

Lemma contains_tail (p : str) (c : N) (l : str) :
  contains p (c :: l) = false -> contains p l = false.
Proof. cbn [contains]. intros H. apply orb_false_iff in H. tauto. Qed.

Lemma contains_head (p l : str) :
  contains p l = false -> starts_with p l = false.
Proof. destruct l; cbn [contains]; intros H; apply orb_false_iff in H; tauto. Qed.

(** ** The substitution *)

Lemma re_sub_cons (d : N) (emoji repl : str) (c : N) (rest : str) :
  re_sub d emoji repl (c :: rest) =
  match match_at d emoji (c :: rest) with
  | Some n => repl ++ re_sub d emoji repl (drop n rest)
  | None => c :: re_sub d emoji repl rest
  end.
Proof. simp re_sub. destruct (match_at d emoji (c :: rest)); reflexivity. Qed.

Lemma match_at_Some (d : N) (emoji : str) (c : N) (rest : str) (n : nat) :
  match_at d emoji (c :: rest) = Some n ->
  c = d /\ starts_with emoji rest = true
  /\ 0 < ws_run (drop (length emoji) rest)
  /\ n = length emoji + ws_run (drop (length emoji) rest).
Proof.
  unfold match_at.
  destruct (N.eqb c d) eqn:Hc; [|discriminate].
  destruct (starts_with emoji rest) eqn:Hp; [|discriminate].
  destruct (0 <? ws_run (drop (length emoji) rest)) eqn:Hw; [|discriminate].
  simpl. intros [= <-]. apply N.eqb_eq in Hc. apply Nat.ltb_lt in Hw. auto.
Qed.

Lemma match_at_no_prefix (d : N) (emoji : str) (c : N) (rest : str) :
  starts_with emoji rest = false -> match_at d emoji (c :: rest) = None.
Proof. unfold match_at. intros ->. rewrite andb_false_r. reflexivity. Qed.

(** A pass for an emoji that does not occur in the line is the identity. *)
Lemma re_sub_absent (d : N) (emoji repl line : str) :
  contains emoji line = false -> re_sub d emoji repl line = line.
Proof.
  induction line as [|c rest IH]; intros H.
  - simp re_sub. reflexivity.
  - rewrite re_sub_cons, match_at_no_prefix.
    + rewrite IH; [reflexivity | eapply contains_tail, H].
    + apply contains_head. eapply contains_tail, H.
Qed.

Lemma strip_emoji_absent (line emoji : str) :
  contains emoji line = false -> strip_emoji line emoji = line.
Proof.
  intros H. unfold strip_emoji. cbv zeta.
  rewrite (re_sub_absent backtick), (re_sub_absent squote), (re_sub_absent dquote);
    auto.
Qed.

Lemma fold_strip_absent (es : list str) (line : str) :
  (forall e, In e es -> contains e line = false) ->
  fold_left strip_emoji es line = line.
Proof.
  induction es as [|e es IH]; intros H; simpl; [reflexivity|].
  rewrite strip_emoji_absent by (apply H; left; reflexivity).
  apply IH. intros e' He'. apply H. right. exact He'.
Qed.

Lemma strip_rule_absent (line : str) :
  (forall e, In e emojis -> contains e line = false) -> strip_rule line = line.
Proof.
  intros H. unfold strip_rule.
  destruct (contains logger_error line || contains logger_warn line);
    [apply fold_strip_absent, H | reflexivity].
Qed.

Lemma no_emoji_existsb (line : str) :
  (forall e, In e emojis -> contains e line = false) ->
  existsb (fun emoji => contains emoji line) emojis = false.
Proof.
  intros H. apply not_true_is_false. intros Hex.
  apply existsb_exists in Hex as [e [He Hc]]. rewrite (H e He) in Hc. discriminate.
Qed.

(** ** The info rule *)

Lemma info_rule_true (line : str) :
  info_rule line = true <->
  contains logger_info line = true
  /\ (contains triple_eq line = true
      \/ exists emoji, In emoji emojis /\ contains emoji line = true).
Proof.
  unfold info_rule.
  destruct (contains logger_info line); [|split; [discriminate | intros [H _]; discriminate]].
  destruct (contains triple_eq line).
  - split; auto.
  - rewrite existsb_exists. split.
    + intros H. split; [reflexivity | right; exact H].
    + intros [_ [H | H]]; [discriminate | exact H].
Qed.

Lemma clean_None_info_rule (line : str) :
  clean_logger_line line = None <-> info_rule line = true.
Proof. unfold clean_logger_line. destruct (info_rule line); split; congruence. Qed.

(** C1: a line with [logger.info] and [===] is deleted, whatever else it
    holds. *)
Theorem info_triple_eq_deleted (line : str) :
  contains logger_info line = true ->
  contains triple_eq line = true ->
  clean_logger_line line = None.
Proof.
  intros Hi He. unfold clean_logger_line.
  replace (info_rule line) with true; [reflexivity|].
  symmetry. apply info_rule_true. auto.
Qed.

Lemma info_triple_eq_deleted_witness :
  clean_logger_line (lit "  logger.info('=== step 1 ===');") = None.
Proof. apply info_triple_eq_deleted; vm_compute; reflexivity. Defined.

(** C2: a line with [logger.info], without [===] and with a symbol of the
    emoji list is deleted. *)
Theorem info_emoji_deleted (line emoji : str) :
  contains logger_info line = true ->
  contains triple_eq line = false ->
  In emoji emojis ->
  contains emoji line = true ->
  clean_logger_line line = None.
Proof.
  intros Hi _ He Hc. unfold clean_logger_line.
  replace (info_rule line) with true; [reflexivity|].
  symmetry. apply info_rule_true. split; [exact Hi | right; exists emoji; auto].
Qed.

Lemma info_emoji_deleted_witness :
  clean_logger_line (lit "logger.info('" ++ [0x1F50D%N] ++ lit " searching');") = None.
Proof.
  apply (info_emoji_deleted _ [0x1F50D%N]);
    [vm_compute; reflexivity | vm_compute; reflexivity | | vm_compute; reflexivity].
  unfold emojis. do 7 right. left. reflexivity.
Defined.

(** C3: a line with [logger.info] and neither [===] nor a symbol of the
    emoji list comes back unchanged; when it also names [logger.error] or
    [logger.warn] the substitutions run and change nothing. *)
Theorem info_plain_unchanged (line : str) :
  contains logger_info line = true ->
  contains triple_eq line = false ->
  (forall emoji, In emoji emojis -> contains emoji line = false) ->
  clean_logger_line line = Some line.
Proof.
  intros Hi He Hn. unfold clean_logger_line, info_rule.
  rewrite Hi, He, (no_emoji_existsb _ Hn), (strip_rule_absent _ Hn). reflexivity.
Qed.

Lemma no_emoji_forallb (line : str) :
  forallb (fun emoji => negb (contains emoji line)) emojis = true ->
  forall emoji, In emoji emojis -> contains emoji line = false.
Proof.
  intros H emoji He. rewrite forallb_forall in H.
  apply negb_true_iff. apply H. exact He.
Qed.

Lemma info_plain_unchanged_witness :
  clean_logger_line (lit "logger.info('started'); logger.warn('careful');")
  = Some (lit "logger.info('started'); logger.warn('careful');").
Proof.
  apply info_plain_unchanged;
    [vm_compute; reflexivity | vm_compute; reflexivity | ].
  apply no_emoji_forallb. vm_compute. reflexivity.
Defined.

(** C9: the delete marker is returned exactly for the lines that contain
    [logger.info] together with [===] or a symbol of the emoji list; a line
    without [logger.info] is never deleted. *)
Theorem deleted_iff (line : str) :
  (clean_logger_line line = None <->
   contains logger_info line = true
   /\ (contains triple_eq line = true
       \/ exists emoji, In emoji emojis /\ contains emoji line = true))
  /\ (contains logger_info line = false -> clean_logger_line line <> None).
Proof.
  split.
  - rewrite clean_None_info_rule. apply info_rule_true.
  - intros Hi Hnone. apply clean_None_info_rule, info_rule_true in Hnone.
    destruct Hnone as [Hc _]. congruence.
Qed.

(** ** Warn and error lines without emoji *)

(** C8, as amended: a line with [logger.error] or [logger.warn] and without
    any symbol of the emoji list comes back unchanged, unless the info rule
    deletes it, that is unless it also holds both [logger.info] and [===]. *)
Theorem warn_error_plain_unchanged (line : str) :
  contains logger_error line || contains logger_warn line = true ->
  (forall emoji, In emoji emojis -> contains emoji line = false) ->
  contains logger_info line && contains triple_eq line = false ->
  clean_logger_line line = Some line.
Proof.
  intros _ Hn Hi. unfold clean_logger_line, info_rule.
  rewrite (no_emoji_existsb _ Hn), (strip_rule_absent _ Hn).
  destruct (contains logger_info line); [|reflexivity].
  simpl in Hi. rewrite Hi. reflexivity.
Qed.

Lemma warn_error_plain_unchanged_witness :
  clean_logger_line (lit "logger.warn('disk almost full', usage);")
  = Some (lit "logger.warn('disk almost full', usage);").
Proof.
  apply warn_error_plain_unchanged;
    [vm_compute; reflexivity | | vm_compute; reflexivity].
  apply no_emoji_forallb. vm_compute. reflexivity.
Defined.

(** C8, as stated, fails: this line names [logger.warn] and holds no emoji,
    yet the info rule comes first and deletes it. *)
Lemma warn_error_plain_counterexample :
  contains logger_error info_warn_line || contains logger_warn info_warn_line = true
  /\ forallb (fun emoji => negb (contains emoji info_warn_line)) emojis = true
  /\ clean_logger_line info_warn_line = None
  /\ clean_logger_line info_warn_line <> Some info_warn_line.
Proof. vm_compute. repeat split; discriminate. Qed.

(** ** The file pass *)

Lemma clean_file_from (lines : list str) (st : pass) :
  fold_left clean_step lines st =
  mk_pass (cleaned_lines st ++ omap clean_logger_line lines)
          (removed_count st + deleted lines).
Proof.
  revert st. induction lines as [|line lines IH]; intros [cl rc].
  - simpl. unfold deleted. simpl. rewrite app_nil_r, Nat.add_0_r. reflexivity.
  - cbn [fold_left]. rewrite IH. unfold clean_step, deleted, is_deleted.
    cbn [omap list_omap List.filter cleaned_lines removed_count].
    destruct (clean_logger_line line) as [cleaned|]; cbn [cleaned_lines removed_count].
    + rewrite <- app_assoc. reflexivity.
    + cbn [length]. f_equal. lia.
Qed.

Lemma clean_file_eq (lines : list str) :
  clean_file lines = mk_pass (omap clean_logger_line lines) (deleted lines).
Proof. unfold clean_file. rewrite clean_file_from. reflexivity. Qed.

Lemma omap_length_deleted (lines : list str) :
  length (omap clean_logger_line lines) + deleted lines = length lines.
Proof.
  unfold deleted, is_deleted. induction lines as [|line lines IH]; [reflexivity|].
  cbn [omap list_omap List.filter].
  destruct (clean_logger_line line); cbn [length]; lia.
Qed.

(** The loop counts right: of the strings it is given, as many reach the
    list for [writelines] as the classifier keeps, and the count is the number
    of the others. *)
Lemma clean_file_counts (lines : list str) :
  removed_count (clean_file lines) = deleted lines
  /\ length (cleaned_lines (clean_file lines)) = length lines - deleted lines
  /\ deleted lines <= length lines.
Proof.
  rewrite clean_file_eq. cbn [cleaned_lines removed_count].
  pose proof (omap_length_deleted lines). lia.
Qed.

(** The whitespace of a pattern includes the line feed, so a rewritten line
    can lose the line feed that ends it. *)
Remark strip_takes_line_feed :
  clean_logger_line (lit "logger.error(`" ++ cross_mark ++ [10%N])
  = Some (lit "logger.error(`").
Proof. vm_compute. reflexivity. Qed.

Lemma omap_lookup_inv {A B : Type} (f : A -> option B) (l : list A) (i : nat) (x : B) :
  omap f l !! i = Some x ->
  exists i' a, l !! i' = Some a /\ f a = Some x /\ length (omap f (take i' l)) = i.
Proof.
  revert i. induction l as [|a l IH]; intros i H; [discriminate|].
  cbn [omap list_omap] in H. destruct (f a) as [y|] eqn:Hfa.
  - destruct i as [|k].
    + injection H as ->. exists 0, a. auto.
    + cbn in H. destruct (IH _ H) as (i' & a' & Hl & Hf & Hlen).
      exists (S i'), a'. repeat split; [exact Hl | exact Hf |].
      cbn [take firstn omap list_omap]. rewrite Hfa. cbn [length]. lia.
  - destruct (IH _ H) as (i' & a' & Hl & Hf & Hlen).
    exists (S i'), a'. repeat split; [exact Hl | exact Hf |].
    cbn [take firstn omap list_omap]. rewrite Hfa. exact Hlen.
Qed.

Lemma omap_lookup_order {A B : Type} (f : A -> option B) (l : list A)
      (i j : nat) (x y : B) :
  i < j -> omap f l !! i = Some x -> omap f l !! j = Some y ->
  exists i' j' a b,
    i' < j' /\ l !! i' = Some a /\ f a = Some x /\ l !! j' = Some b /\ f b = Some y.
Proof.
  intros Hij Hx Hy.
  destruct (omap_lookup_inv _ _ _ _ Hx) as (i' & a & Hl & Hf & Hlen).
  rewrite <- (take_drop (S i') l) in Hy. rewrite omap_app in Hy.
  assert (Hpre : length (omap f (take (S i') l)) = S i).
  { rewrite (take_S_r _ _ _ Hl), omap_app, length_app. cbn [omap list_omap].
    rewrite Hf. cbn [length]. lia. }
  rewrite lookup_app_r in Hy by lia. rewrite Hpre in Hy.
  destruct (omap_lookup_inv _ _ _ _ Hy) as (k & b & Hk & Hfb & _).
  rewrite lookup_drop in Hk.
  exists i', (S i' + k), a, b. repeat split; auto. lia.
Qed.

(** C7: the lines written are the results of the classifier that are not the
    delete marker, in the order of the input: what a part of the input
    contributes is written before what the part after it contributes, and
    two lines written in some order come from two input lines in that
    order. *)
Theorem clean_file_order (lines : list str) :
  cleaned_lines (clean_file lines) = omap clean_logger_line lines
  /\ (forall before after : list str,
        lines = before ++ after ->
        cleaned_lines (clean_file lines) =
        cleaned_lines (clean_file before) ++ cleaned_lines (clean_file after))
  /\ (forall (i j : nat) (x y : str),
        i < j ->
        cleaned_lines (clean_file lines) !! i = Some x ->
        cleaned_lines (clean_file lines) !! j = Some y ->
        exists i' j' a b,
          i' < j' /\ lines !! i' = Some a /\ clean_logger_line a = Some x
          /\ lines !! j' = Some b /\ clean_logger_line b = Some y).
Proof.
  split; [|split].
  - rewrite clean_file_eq. reflexivity.
  - intros before after ->. rewrite !clean_file_eq. cbn [cleaned_lines].
    apply omap_app.
  - intros i j x y Hij. rewrite clean_file_eq. cbn [cleaned_lines].
    apply omap_lookup_order. exact Hij.
Qed.

(** ** Delimiters, emojis and whitespace are disjoint *)

Lemma is_delimiter_In (c : N) : is_delimiter c = true <-> In c delimiters.
Proof.
  unfold is_delimiter. rewrite existsb_exists. split.
  - intros [d [Hd Hc]]. apply N.eqb_eq in Hc. subst. exact Hd.
  - intros H. exists c. split; [exact H | apply N.eqb_refl].
Qed.

Lemma space_not_delimiter (w : N) : isspace w = true -> is_delimiter w = false.
Proof.
  intros Hw. destruct (is_delimiter w) eqn:Hd; [|reflexivity].
  apply is_delimiter_In in Hd. unfold delimiters in Hd. simpl in Hd.
  destruct Hd as [<- | [<- | [<- | []]]]; vm_compute in Hw; discriminate.
Qed.

Lemma emoji_nodelim (emoji : str) : In emoji emojis -> nodelim emoji = true.
Proof.
  assert (H : forallb nodelim emojis = true) by (vm_compute; reflexivity).
  rewrite forallb_forall in H. apply H.
Qed.

Lemma spaces_nodelim (ws : str) : forallb isspace ws = true -> nodelim ws = true.
Proof.
  unfold nodelim. rewrite !forallb_forall. intros H a Ha.
  rewrite space_not_delimiter; [reflexivity | apply H, Ha].
Qed.

Lemma passes_In (d : N) (emoji : str) :
  In (d, emoji) passes <-> In d delimiters /\ In emoji emojis.
Proof.
  unfold passes. rewrite in_flat_map. unfold delimiters. simpl. split.
  - intros [e [He [H | [H | [H | []]]]]]; injection H as <- <-; auto.
  - intros [[<- | [<- | [<- | []]]] He]; exists emoji; auto.
Qed.

(** ** Whitespace runs *)

Lemma ws_run_take (l : str) : forallb isspace (take (ws_run l) l) = true.
Proof.
  induction l as [|c l IH]; [reflexivity|]. simpl.
  destruct (isspace c) eqn:Hc; [|reflexivity]. simpl. rewrite Hc. exact IH.
Qed.

Lemma ws_run_drop (l : str) : ws_run (drop (ws_run l) l) = 0.
Proof.
  induction l as [|c l IH]; [reflexivity|]. simpl.
  destruct (isspace c) eqn:Hc; [exact IH|]. simpl. rewrite Hc. reflexivity.
Qed.

Lemma ws_run_le (l : str) : ws_run l <= length l.
Proof.
  induction l as [|c l IH]; [reflexivity|]. simpl.
  destruct (isspace c); simpl; lia.
Qed.

(** What a match spans: the emoji, a run of whitespace that is not empty and
    cannot be extended, and then the rest. *)
Lemma match_at_split (d : N) (emoji : str) (c : N) (rest : str) (n : nat) :
  match_at d emoji (c :: rest) = Some n ->
  exists ws post,
    c = d /\ rest = emoji ++ ws ++ post /\ drop n rest = post
    /\ ws <> [] /\ forallb isspace ws = true /\ ws_run post = 0
    /\ n = length (emoji ++ ws).
Proof.
  intros H. apply match_at_Some in H as (Hc & Hp & Hw & Hn).
  apply starts_with_spec in Hp as [r ->]. rewrite drop_app_length in Hw, Hn.
  exists (take (ws_run r) r), (drop (ws_run r) r).
  assert (Hlen : length (take (ws_run r) r) = ws_run r).
  { rewrite length_take. pose proof (ws_run_le r). lia. }
  repeat split.
  - exact Hc.
  - rewrite take_drop. reflexivity.
  - rewrite Hn, <- drop_drop, drop_app_length. reflexivity.
  - intros Hnil. rewrite Hnil in Hlen. simpl in Hlen. lia.
  - apply ws_run_take.
  - apply ws_run_drop.
  - rewrite length_app, Hlen. exact Hn.
Qed.

(** ** One scan for a list of patterns *)

Lemma str_length_ind (P : str -> Prop) :
  (forall l, (forall l', length l' < length l -> P l') -> P l) -> forall l, P l.
Proof.
  intros H l. remember (length l) as n eqn:Hn. revert l Hn.
  induction n as [n IH] using lt_wf_ind. intros l ->.
  apply H. intros l' Hl'. apply (IH (length l') Hl' l' eq_refl).
Qed.

Lemma strip_by_cons (ps : list (N * str)) (c : N) (rest : str) :
  strip_by ps (c :: rest) =
  c :: strip_by ps (match anchored ps (c :: rest) with
                    | Some n => drop n rest
                    | None => rest
                    end).
Proof. simp strip_by. destruct (anchored ps (c :: rest)); reflexivity. Qed.

Lemma strip_by_no_pattern (line : str) : strip_by [] line = line.
Proof.
  induction line as [|c rest IH]; [simp strip_by; reflexivity|].
  rewrite strip_by_cons. simpl. rewrite IH. reflexivity.
Qed.

(** A substitution of the source is the scan for its one pattern. *)
Lemma re_sub_strip_by (d : N) (emoji line : str) :
  re_sub d emoji [d] line = strip_by [(d, emoji)] line.
Proof.
  induction line as [line IH] using str_length_ind.
  destruct line as [|c rest]; [simp re_sub strip_by; reflexivity|].
  rewrite re_sub_cons, strip_by_cons. cbn [anchored].
  destruct (match_at d emoji (c :: rest)) as [n|] eqn:Hm.
  - apply match_at_Some in Hm as [-> _]. cbn [app]. f_equal.
    apply IH. shorter.
  - f_equal. apply IH. shorter.
Qed.

Lemma strip_emoji_strip_by (line emoji : str) :
  strip_emoji line emoji =
  strip_by [(dquote, emoji)]
    (strip_by [(squote, emoji)] (strip_by [(backtick, emoji)] line)).
Proof. unfold strip_emoji. cbv zeta. rewrite !re_sub_strip_by. reflexivity. Qed.

(** The loop of the source is one scan after the other, in the order of
    [passes]. *)
Lemma fold_strip_emoji_passes (es : list str) (line : str) :
  fold_left strip_emoji es line =
  fold_left (fun l p => strip_by [p] l)
    (flat_map (fun emoji => [(backtick, emoji); (squote, emoji); (dquote, emoji)]) es)
    line.
Proof.
  revert line. induction es as [|e es IH]; intros line; [reflexivity|].
  cbn [fold_left flat_map app]. rewrite IH, strip_emoji_strip_by. reflexivity.
Qed.

(** ** Nothing is inserted *)

Lemma strip_by_sublist (ps : list (N * str)) (line : str) :
  sublist (strip_by ps line) line.
Proof.
  induction line as [line IH] using str_length_ind.
  destruct line as [|c rest]; [simp strip_by; constructor|].
  rewrite strip_by_cons. apply sublist_skip.
  destruct (anchored ps (c :: rest)) as [n|].
  - transitivity (drop n rest); [|apply sublist_drop].
    apply IH. shorter.
  - apply IH. shorter.
Qed.

Lemma fold_strip_by_sublist (qs : list (N * str)) (line : str) :
  sublist (fold_left (fun l p => strip_by [p] l) qs line) line.
Proof.
  revert line. induction qs as [|q qs IH]; intros line; [reflexivity|].
  cbn [fold_left]. transitivity (strip_by [q] line); [apply IH | apply strip_by_sublist].
Qed.

Lemma strip_rule_sublist (line : str) : sublist (strip_rule line) line.
Proof.
  unfold strip_rule.
  destruct (contains logger_error line || contains logger_warn line); [|reflexivity].
  rewrite fold_strip_emoji_passes. apply fold_strip_by_sublist.
Qed.

(** C10: a line that is not deleted comes back as a subsequence of itself:
    characters are dropped, none is added or moved, and the result is not
    longer than the line. *)
Theorem result_is_subsequence (line out : str) :
  clean_logger_line line = Some out ->
  sublist out line /\ length out <= length line.
Proof.
  unfold clean_logger_line. destruct (info_rule line); [discriminate|].
  intros [= <-]. pose proof (strip_rule_sublist line) as H.
  split; [exact H | apply sublist_length, H].
Qed.

Lemma result_is_subsequence_witness :
  sublist (lit "logger.warn('retrying');")
          (lit "logger.warn('" ++ [0x26A0%N; 0xFE0F%N] ++ lit "  retrying');")
  /\ length (lit "logger.warn('retrying');")
     <= length (lit "logger.warn('" ++ [0x26A0%N; 0xFE0F%N] ++ lit "  retrying');").
Proof. apply result_is_subsequence. vm_compute. reflexivity. Defined.

(** ** Every change is a removal behind a delimiter *)

Lemma strip_step_cons (c : N) (a b : str) :
  strip_step a b -> strip_step (c :: a) (c :: b).
Proof.
  intros [pre d emoji ws post Hd He Hne Hws Hpost].
  apply (strip_step_at (c :: pre)); assumption.
Qed.

Lemma strip_steps_cons (c : N) (a b : str) :
  rtc strip_step a b -> rtc strip_step (c :: a) (c :: b).
Proof.
  induction 1 as [|a b b' Hab _ IH]; [reflexivity|].
  eapply rtc_l; [apply strip_step_cons, Hab | exact IH].
Qed.

Lemma anchored_inv (ps : list (N * str)) (s : str) (n : nat) :
  anchored ps s = Some n ->
  exists d emoji, In (d, emoji) ps /\ match_at d emoji s = Some n.
Proof.
  induction ps as [|[d e] ps IH]; [discriminate|]. cbn [anchored].
  destruct (match_at d e s) as [m|] eqn:Hm.
  - intros [= <-]. exists d, e. split; [left; reflexivity | exact Hm].
  - intros H. destruct (IH H) as (d' & e' & Hin & Hm').
    exists d', e'. split; [right; exact Hin | exact Hm'].
Qed.

Lemma anchored_app (ps qs : list (N * str)) (s : str) :
  anchored (ps ++ qs) s =
  match anchored ps s with Some n => Some n | None => anchored qs s end.
Proof.
  induction ps as [|[d e] ps IH]; [reflexivity|]. cbn [anchored app].
  destruct (match_at d e s); [reflexivity | exact IH].
Qed.

Lemma strip_by_steps (ps : list (N * str)) (line : str) :
  incl ps passes -> rtc strip_step line (strip_by ps line).
Proof.
  intros Hps. induction line as [line IH] using str_length_ind.
  destruct line as [|c rest]; [simp strip_by; reflexivity|].
  rewrite strip_by_cons.
  destruct (anchored ps (c :: rest)) as [n|] eqn:Ha.
  - apply anchored_inv in Ha as (d & emoji & Hin & Hm).
    apply Hps, passes_In in Hin as [Hd He].
    apply match_at_split in Hm
      as (ws & post & Hc & Hrest & Hdrop & Hne & Hws & Hpost & _).
    subst c. rewrite Hdrop. eapply rtc_l.
    + rewrite Hrest. apply (strip_step_at [] d emoji ws post); assumption.
    + cbn [app]. apply strip_steps_cons, IH.
      rewrite Hrest. cbn [length]. rewrite !length_app. lia.
  - apply strip_steps_cons, IH. shorter.
Qed.

Lemma fold_strip_by_steps (qs : list (N * str)) (line : str) :
  incl qs passes ->
  rtc strip_step line (fold_left (fun l p => strip_by [p] l) qs line).
Proof.
  revert line. induction qs as [|q qs IH]; intros line Hqs; [reflexivity|].
  cbn [fold_left]. transitivity (strip_by [q] line).
  - apply strip_by_steps. intros p [<- | []]. apply Hqs. left. reflexivity.
  - apply IH. intros p Hp. apply Hqs. right. exact Hp.
Qed.

Lemma strip_rule_steps (line : str) : rtc strip_step line (strip_rule line).
Proof.
  unfold strip_rule.
  destruct (contains logger_error line || contains logger_warn line); [|reflexivity].
  rewrite fold_strip_emoji_passes. apply fold_strip_by_steps. intros p Hp. exact Hp.
Qed.

(** ** The loop against the single scan *)

Section scan.
Variable ps : list (N * str).
Hypothesis Hps : incl ps passes.

Lemma anchored_no_delimiter (c : N) (rest : str) :
  is_delimiter c = false -> anchored ps (c :: rest) = None.
Proof.
  intros Hc. destruct (anchored ps (c :: rest)) as [n|] eqn:Ha; [|reflexivity].
  apply anchored_inv in Ha as (d & e & Hin & Hm).
  apply Hps, passes_In in Hin as [Hd _]. apply match_at_Some in Hm as [-> _].
  apply is_delimiter_In in Hd. congruence.
Qed.

(** A scan copies a stretch without delimiter as it is. *)
Lemma strip_by_keep (x s : str) :
  nodelim x = true -> strip_by ps (x ++ s) = x ++ strip_by ps s.
Proof.
  induction x as [|a x IH]; intros Hx; [reflexivity|].
  cbn [nodelim forallb] in Hx. apply andb_true_iff in Hx as [Ha Hx].
  apply negb_true_iff in Ha.
  cbn [app]. rewrite strip_by_cons, anchored_no_delimiter by assumption.
  rewrite (IH Hx). reflexivity.
Qed.

Lemma starts_with_strip_by (x s : str) :
  nodelim x = true -> starts_with x (strip_by ps s) = starts_with x s.
Proof.
  revert s. induction x as [|a x IH]; intros s Hx; [reflexivity|].
  cbn [nodelim forallb] in Hx. apply andb_true_iff in Hx as [Ha Hx].
  apply negb_true_iff in Ha.
  destruct s as [|c rest]; [simp strip_by; reflexivity|].
  rewrite strip_by_cons. cbn [starts_with].
  destruct (N.eqb a c) eqn:Hac; [|reflexivity].
  apply N.eqb_eq in Hac. subst c.
  rewrite anchored_no_delimiter by assumption. cbn [andb]. apply IH, Hx.
Qed.

Lemma ws_run_strip_by (s : str) : ws_run (strip_by ps s) = ws_run s.
Proof.
  induction s as [|c rest IH]; [simp strip_by; reflexivity|].
  rewrite strip_by_cons. cbn [ws_run].
  destruct (isspace c) eqn:Hc; [|reflexivity].
  rewrite anchored_no_delimiter by (auto using space_not_delimiter).
  rewrite IH. reflexivity.
Qed.

Lemma strip_by_keep_prefix (emoji ws x : str) :
  In emoji emojis -> forallb isspace ws = true ->
  strip_by ps (emoji ++ ws ++ x) = emoji ++ ws ++ strip_by ps x.
Proof.
  intros He Hws. rewrite app_assoc, strip_by_keep, <- app_assoc; [reflexivity|].
  unfold nodelim. rewrite forallb_app. apply andb_true_iff. split.
  - apply emoji_nodelim, He.
  - apply spaces_nodelim, Hws.
Qed.

(** Whether a pattern matches at a position is not changed by a scan of the
    text behind that position. *)
Lemma match_at_strip_by (d : N) (emoji : str) (c : N) (rest : str) :
  In emoji emojis ->
  match_at d emoji (c :: strip_by ps rest) = match_at d emoji (c :: rest).
Proof.
  intros He. pose proof (emoji_nodelim _ He) as Hnd. unfold match_at.
  rewrite starts_with_strip_by by assumption.
  destruct (starts_with emoji rest) eqn:Hp;
    [|rewrite !andb_false_r; reflexivity].
  apply starts_with_spec in Hp as [r ->].
  rewrite strip_by_keep by assumption.
  rewrite !drop_app_length, ws_run_strip_by. reflexivity.
Qed.

Lemma drop_match_strip_by (d : N) (emoji : str) (c : N) (rest : str) (n : nat) :
  In emoji emojis ->
  match_at d emoji (c :: rest) = Some n ->
  drop n (strip_by ps rest) = strip_by ps (drop n rest).
Proof.
  intros He Hm.
  apply match_at_split in Hm as (ws & post & _ & Hrest & Hdrop & _ & Hws & _ & Hn).
  rewrite Hdrop, Hrest, strip_by_keep_prefix, Hn, app_assoc by assumption.
  apply drop_app_length.
Qed.

End scan.

Lemma stacked_head (c : N) (rest : str) (d : N) (emoji : str) (n : nat) :
  stacked (c :: rest) = false -> In (d, emoji) passes ->
  match_at d emoji (c :: rest) = Some n -> emoji_ws (drop n rest) = false.
Proof.
  cbn [stacked]. intros H Hin Hm. apply orb_false_iff in H as [H _].
  destruct (emoji_ws (drop n rest)) eqn:Hews; [|reflexivity].
  rewrite <- H. symmetry. apply existsb_exists.
  exists (d, emoji). split; [exact Hin|]. cbv beta iota. rewrite Hm. exact Hews.
Qed.

Lemma stacked_drop (n : nat) (line : str) :
  stacked line = false -> stacked (drop n line) = false.
Proof.
  revert line. induction n as [|n IH]; intros line H; [exact H|].
  destruct line as [|c rest]; [reflexivity|]. cbn [drop skipn].
  apply IH. cbn [stacked] in H. apply orb_false_iff in H. tauto.
Qed.

Lemma emoji_ws_intro (d : N) (emoji : str) (c : N) (s : str) (n : nat) :
  In emoji emojis -> match_at d emoji (c :: s) = Some n -> emoji_ws s = true.
Proof.
  intros He Hm. apply match_at_Some in Hm as (_ & Hp & Hw & _).
  unfold emoji_ws. apply existsb_exists. exists emoji. split; [exact He|].
  rewrite Hp. apply Nat.ltb_lt in Hw. rewrite Hw. reflexivity.
Qed.

(** On a line without stacked prefixes, a scan for one more pattern after a
    scan for the patterns [ps] is the scan for all of them. *)
Lemma strip_by_snoc (ps : list (N * str)) (d : N) (emoji : str) (line : str) :
  incl ps passes -> In (d, emoji) passes -> stacked line = false ->
  strip_by [(d, emoji)] (strip_by ps line) = strip_by (ps ++ [(d, emoji)]) line.
Proof.
  intros Hps Hp. pose proof Hp as Hde. apply passes_In in Hde as [Hd He].
  induction line as [line IH] using str_length_ind. intros Hst.
  destruct line as [|c rest]; [simp strip_by; reflexivity|].
  rewrite (strip_by_cons ps), (strip_by_cons (ps ++ _)), anchored_app.
  rewrite (strip_by_cons [_]). cbn [anchored].
  destruct (anchored ps (c :: rest)) as [n|] eqn:Ha.
  - rewrite match_at_strip_by by assumption.
    destruct (match_at d emoji (c :: drop n rest)) as [m|] eqn:Hm.
    + exfalso. apply anchored_inv in Ha as (d' & e' & Hin' & Hm').
      apply (emoji_ws_intro _ _ _ _ _ He) in Hm.
      rewrite (stacked_head _ _ _ _ _ Hst (Hps _ Hin') Hm') in Hm. discriminate.
    + f_equal. apply IH.
      * shorter.
      * apply stacked_drop. apply (stacked_drop 1 (c :: rest)), Hst.
  - rewrite match_at_strip_by by assumption.
    destruct (match_at d emoji (c :: rest)) as [n|] eqn:Hm.
    + f_equal. rewrite (drop_match_strip_by ps Hps d emoji c) by assumption.
      apply IH.
      * shorter.
      * apply stacked_drop. apply (stacked_drop 1 (c :: rest)), Hst.
    + f_equal. apply IH; [shorter | apply (stacked_drop 1 (c :: rest)), Hst].
Qed.

Lemma fold_strip_by_app (qs ps : list (N * str)) (line : str) :
  incl ps passes -> incl qs passes -> stacked line = false ->
  fold_left (fun l p => strip_by [p] l) qs (strip_by ps line)
  = strip_by (ps ++ qs) line.
Proof.
  revert ps. induction qs as [|[d e] qs IH]; intros ps Hps Hqs Hst.
  - rewrite app_nil_r. reflexivity.
  - cbn [fold_left]. rewrite strip_by_snoc; [|exact Hps|apply Hqs; left; reflexivity|exact Hst].
    rewrite IH; [rewrite <- app_assoc; reflexivity| |intros p Hp; apply Hqs; right; exact Hp|exact Hst].
    apply incl_app; [exact Hps|]. intros p [<- | []]. apply Hqs. left. reflexivity.
Qed.

(** On a line without stacked prefixes the loop of the source computes the
    specified rewriting. *)
Lemma loop_is_strip_spec (line : str) :
  stacked line = false -> fold_left strip_emoji emojis line = strip_spec line.
Proof.
  intros Hst. rewrite fold_strip_emoji_passes. fold passes.
  rewrite <- (strip_by_no_pattern line) at 1.
  rewrite fold_strip_by_app; [reflexivity| | |exact Hst]; intros p Hp; [destruct Hp | exact Hp].
Qed.

(** ** The loop removes what the single scan removes *)

(** No emoji of the list is empty, and no two start with the same code
    point. *)
Lemma emoji_head_unique (e e' : str) :
  In e emojis -> In e' emojis -> head e = head e' -> e <> [] /\ e = e'.
Proof.
  assert (H : forallb (fun x => forallb (fun y =>
              negb (bool_decide (x = [])) &&
              implb (bool_decide (head x = head y)) (bool_decide (x = y)))
              emojis) emojis = true) by (vm_compute; reflexivity).
  intros He He' Hh. rewrite forallb_forall in H. specialize (H e He).
  rewrite forallb_forall in H. specialize (H e' He').
  apply andb_true_iff in H as [Hne Himp]. apply negb_true_iff in Hne.
  apply bool_decide_eq_false in Hne. split; [exact Hne|].
  rewrite (bool_decide_eq_true_2 _ Hh) in Himp. apply bool_decide_eq_true in Himp.
  exact Himp.
Qed.

Lemma emoji_prefix_unique (e e' y y' : str) :
  In e emojis -> In e' emojis -> e ++ y = e' ++ y' -> e = e'.
Proof.
  intros He He' H.
  destruct (emoji_head_unique e e He He eq_refl) as [Hne _].
  destruct (emoji_head_unique e' e' He' He' eq_refl) as [Hne' _].
  apply (emoji_head_unique e e' He He').
  destruct e as [|a e]; [congruence|]. destruct e' as [|a' e']; [congruence|].
  injection H as -> _. reflexivity.
Qed.

Lemma ws_run_app_spaces (ws l : str) :
  forallb isspace ws = true -> ws_run (ws ++ l) = length ws + ws_run l.
Proof.
  induction ws as [|w ws IH]; [reflexivity|]. cbn [forallb]. intros H.
  apply andb_true_iff in H as [Hw Hws]. cbn [app ws_run length]. rewrite Hw, (IH Hws).
  reflexivity.
Qed.

Lemma ws_run_app_stop (y : str) (d : N) (x : str) :
  isspace d = false -> ws_run (y ++ d :: x) = ws_run y.
Proof.
  intros Hd. induction y as [|c y IH]; cbn [app ws_run]; [rewrite Hd; reflexivity|].
  destruct (isspace c); [rewrite IH|]; reflexivity.
Qed.

Lemma delimiter_not_space (d : N) : In d delimiters -> isspace d = false.
Proof.
  intros H. apply is_delimiter_In in H. destruct (isspace d) eqn:Hs; [|reflexivity].
  apply space_not_delimiter in Hs. congruence.
Qed.

Lemma starts_with_app_delim (e pre : str) (d : N) (x : str) :
  nodelim e = true -> In d delimiters ->
  starts_with e (pre ++ d :: x) = starts_with e pre.
Proof.
  intros He Hd. revert pre He. induction e as [|a e IH]; intros pre He; [reflexivity|].
  cbn [nodelim forallb] in He. apply andb_true_iff in He as [Ha He].
  destruct pre as [|c pre]; cbn [app starts_with].
  - destruct (N.eqb a d) eqn:Had; [|reflexivity]. apply N.eqb_eq in Had. subst a.
    apply is_delimiter_In in Hd. rewrite Hd in Ha. discriminate.
  - rewrite (IH pre He). reflexivity.
Qed.

(** A match never reaches the next delimiter: what stands from a delimiter on
    has no part in the matches before it. *)
Lemma match_at_app_delim (d' : N) (e : str) (c : N) (pre : str) (d : N) (x : str) :
  In e emojis -> In d delimiters ->
  match_at d' e (c :: pre ++ d :: x) = match_at d' e (c :: pre).
Proof.
  intros He Hd. unfold match_at.
  rewrite starts_with_app_delim by (auto using emoji_nodelim).
  destruct (starts_with e pre) eqn:Hp; [|rewrite !andb_false_r; reflexivity].
  apply starts_with_spec in Hp as [r ->].
  rewrite <- app_assoc, !drop_app_length, ws_run_app_stop
    by (apply delimiter_not_space, Hd).
  reflexivity.
Qed.

Lemma anchored_app_delim (ps : list (N * str)) (c : N) (pre : str) (d : N) (x : str) :
  incl ps passes -> In d delimiters ->
  anchored ps (c :: pre ++ d :: x) = anchored ps (c :: pre).
Proof.
  intros Hps Hd. induction ps as [|[d' e] ps IH]; [reflexivity|]. cbn [anchored].
  assert (He : In e emojis) by (apply (passes_In d'), Hps; left; reflexivity).
  rewrite match_at_app_delim by assumption.
  rewrite IH; [reflexivity|]. intros p Hp. apply Hps. right. exact Hp.
Qed.

Lemma anchored_extent (ps : list (N * str)) (c : N) (pre : str) (n : nat) :
  anchored ps (c :: pre) = Some n -> n <= length pre.
Proof.
  intros H. apply anchored_inv in H as (d & e & _ & Hm).
  apply match_at_split in Hm as (ws & post & _ & -> & _ & _ & _ & _ & ->).
  rewrite !length_app. lia.
Qed.

(** A scan can be cut in front of any delimiter. *)
Lemma strip_by_app_delim (ps : list (N * str)) (pre : str) (d : N) (x : str) :
  incl ps passes -> In d delimiters ->
  strip_by ps (pre ++ d :: x) = strip_by ps pre ++ strip_by ps (d :: x).
Proof.
  intros Hps Hd. induction pre as [pre IH] using str_length_ind.
  destruct pre as [|c pre]; [rewrite strip_by_equation_1; reflexivity|].
  cbn [app]. rewrite !(strip_by_cons ps c), anchored_app_delim by assumption.
  cbn [app]. f_equal.
  destruct (anchored ps (c :: pre)) as [n|] eqn:Ha.
  - apply anchored_extent in Ha. rewrite drop_app_le by exact Ha.
    apply IH. shorter.
  - apply IH. shorter.
Qed.

Lemma strip_steps_app (z a b : str) :
  rtc strip_step a b -> rtc strip_step (z ++ a) (z ++ b).
Proof.
  intros H. induction z as [|c z IH]; [exact H|]. cbn [app].
  apply strip_steps_cons, IH.
Qed.

Lemma strip_step_head (d : N) (emoji ws post : str) :
  In d delimiters -> In emoji emojis ->
  ws <> [] -> forallb isspace ws = true -> ws_run post = 0 ->
  strip_step (d :: emoji ++ ws ++ post) (d :: post).
Proof. apply (strip_step_at []). Qed.

Lemma ws_run_emoji_stop (emoji ws post x : str) :
  In emoji emojis -> ws_run (emoji ++ ws ++ post) = 0 -> ws_run (emoji ++ x) = 0.
Proof.
  intros He. destruct (emoji_head_unique emoji emoji He He eq_refl) as [Hne _].
  destruct emoji as [|a emoji]; [congruence|]. cbn [app ws_run].
  destruct (isspace a); [discriminate | reflexivity].
Qed.

(** A pattern that matches where an emoji and its whitespace stand behind a
    delimiter is the pattern of that delimiter and emoji, and spans them. *)
Lemma match_at_same (d' : N) (e' : str) (d : N) (emoji ws post : str) (n : nat) :
  In emoji emojis -> In e' emojis ->
  forallb isspace ws = true -> ws_run post = 0 ->
  match_at d' e' (d :: emoji ++ ws ++ post) = Some n ->
  d' = d /\ e' = emoji /\ drop n (emoji ++ ws ++ post) = post.
Proof.
  intros He He' Hws Hpost Hm. apply match_at_Some in Hm as (Hd & Hp & _ & Hn).
  apply starts_with_spec in Hp as [r Hr].
  assert (Heq : e' = emoji) by (symmetry; eapply emoji_prefix_unique; eauto).
  subst e'. split; [auto | split; [reflexivity|]].
  rewrite drop_app_length, ws_run_app_spaces, Hpost, Nat.add_0_r in Hn by exact Hws.
  rewrite Hn, <- drop_drop, !drop_app_length. reflexivity.
Qed.

(** A scan after a removal is reached from the scan before it. *)
Lemma strip_by_step_mono (d' : N) (e' : str) (a b : str) :
  In (d', e') passes -> strip_step a b ->
  rtc strip_step (strip_by [(d', e')] a) (strip_by [(d', e')] b).
Proof.
  intros Hp [pre d emoji ws post Hd He Hne Hws Hpost].
  assert (Hps : incl [(d', e')] passes) by (intros p [<- | []]; exact Hp).
  apply passes_In in Hp as [Hd' He'].
  rewrite !strip_by_app_delim by assumption. apply strip_steps_app.
  rewrite !(strip_by_cons _ d). cbn [anchored].
  destruct (match_at d' e' (d :: emoji ++ ws ++ post)) as [n|] eqn:HmA.
  - destruct (match_at_same _ _ _ _ _ _ _ He He' Hws Hpost HmA) as (-> & -> & ->).
    destruct (match_at d emoji (d :: post)) as [m|] eqn:HmB; [|reflexivity].
    apply match_at_split in HmB
      as (ws2 & post2 & _ & Hrest & -> & Hne2 & Hws2 & Hpost2 & _).
    rewrite Hrest, strip_by_keep_prefix by assumption.
    apply rtc_once, strip_step_head; try assumption.
    rewrite ws_run_strip_by by exact Hps. exact Hpost2.
  - rewrite strip_by_keep_prefix by assumption.
    destruct (match_at d' e' (d :: post)) as [m|] eqn:HmB.
    + apply match_at_split in HmB
        as (ws2 & post2 & <- & Hrest & -> & Hne2 & Hws2 & Hpost2 & _).
      assert (Hkeep : strip_by [(d, e')] post
                      = e' ++ ws2 ++ strip_by [(d, e')] post2).
      { rewrite Hrest. apply strip_by_keep_prefix; assumption. }
      rewrite Hkeep. eapply rtc_l; [|apply rtc_once].
      * apply strip_step_head; try assumption.
        apply (ws_run_emoji_stop e' ws2 post2); [exact He' | rewrite <- Hrest; exact Hpost].
      * apply strip_step_head; try assumption.
        rewrite ws_run_strip_by by exact Hps. exact Hpost2.
    + apply rtc_once, strip_step_head; try assumption.
      rewrite ws_run_strip_by by exact Hps. exact Hpost.
Qed.

Lemma strip_by_steps_mono (p : N * str) (a b : str) :
  In p passes -> rtc strip_step a b ->
  rtc strip_step (strip_by [p] a) (strip_by [p] b).
Proof.
  intros Hp. destruct p as [d e]. induction 1 as [|a b c Hab _ IH]; [reflexivity|].
  etransitivity; [apply strip_by_step_mono; eassumption | exact IH].
Qed.

(** A scan for one more pattern after a scan for the patterns [ps] is reached
    from the scan for all of them: it removes what that scan removes, and
    then the prefixes the first scan has brought behind a delimiter. *)
Lemma strip_by_snoc_steps (ps : list (N * str)) (d : N) (emoji : str) (line : str) :
  incl ps passes -> In (d, emoji) passes ->
  rtc strip_step (strip_by (ps ++ [(d, emoji)]) line)
      (strip_by [(d, emoji)] (strip_by ps line)).
Proof.
  intros Hps Hp. pose proof Hp as Hde. apply passes_In in Hde as [Hd He].
  assert (Hps' : incl (ps ++ [(d, emoji)]) passes).
  { apply incl_app; [exact Hps|]. intros p [<- | []]. exact Hp. }
  induction line as [line IH] using str_length_ind.
  destruct line as [|c rest]; [simp strip_by; reflexivity|].
  rewrite (strip_by_cons ps), (strip_by_cons (ps ++ _)), anchored_app.
  rewrite (strip_by_cons [_]). cbn [anchored].
  rewrite match_at_strip_by by assumption.
  destruct (anchored ps (c :: rest)) as [n|] eqn:Ha.
  - assert (Hlen : length (drop n rest) < length (c :: rest))
      by shorter.
    remember (drop n rest) as r eqn:Hr. clear Hr.
    destruct (match_at d emoji (c :: r)) as [m|] eqn:Hm.
    + rewrite (drop_match_strip_by ps Hps d emoji c) by assumption.
      apply match_at_split in Hm
        as (ws & post & -> & Hrest & -> & Hne & Hws & Hpost & _).
      rewrite Hrest, strip_by_keep_prefix by assumption.
      eapply rtc_l.
      * apply strip_step_head; try assumption.
        rewrite ws_run_strip_by by exact Hps'. exact Hpost.
      * apply strip_steps_cons, IH. rewrite Hrest, !length_app in Hlen. lia.
    + apply strip_steps_cons, IH, Hlen.
  - destruct (match_at d emoji (c :: rest)) as [n|] eqn:Hm.
    + rewrite (drop_match_strip_by ps Hps d emoji c) by assumption.
      apply strip_steps_cons, IH. shorter.
    + apply strip_steps_cons, IH. shorter.
Qed.

Lemma fold_strip_by_steps_from (qs ps : list (N * str)) (line cur : str) :
  incl ps passes -> incl qs passes ->
  rtc strip_step (strip_by ps line) cur ->
  rtc strip_step (strip_by (ps ++ qs) line)
      (fold_left (fun l p => strip_by [p] l) qs cur).
Proof.
  revert ps cur. induction qs as [|[d e] qs IH]; intros ps cur Hps Hqs Hcur.
  - rewrite app_nil_r. exact Hcur.
  - cbn [fold_left]. rewrite (cons_middle (d, e)), app_assoc.
    assert (Hp : In (d, e) passes) by (apply Hqs; left; reflexivity).
    apply IH.
    + apply incl_app; [exact Hps|]. intros p [<- | []]. exact Hp.
    + intros p Hin. apply Hqs. right. exact Hin.
    + etransitivity; [apply strip_by_snoc_steps; assumption|].
      apply strip_by_steps_mono; assumption.
Qed.

(** The loop of the source is reached from the specified rewriting: it removes
    every emoji and whitespace that the line has behind a delimiter, and
    beyond that only prefixes that were stacked behind them. *)
Lemma loop_from_strip_spec (line : str) :
  rtc strip_step (strip_spec line) (fold_left strip_emoji emojis line).
Proof.
  rewrite fold_strip_emoji_passes. fold passes. unfold strip_spec.
  apply (fold_strip_by_steps_from passes [] line line).
  - intros p [].
  - intros p Hp. exact Hp.
  - rewrite strip_by_no_pattern. reflexivity.
Qed.

(** ** Warn and error lines with emoji *)

(** C4, as amended: on a line with [logger.error] or [logger.warn] that the
    info rule does not delete, the classifier removes every configured emoji
    that stands, with whitespace after it, directly behind a backtick, a
    single quote or a double quote, together with the whole run of whitespace;
    the delimiter stays.  Beyond that it removes at most further emoji with
    their whitespace, each directly behind a delimiter once the ones before
    it are gone (stacked prefixes); nothing else is touched.  When no two
    prefixes are stacked, the result is the line with each emoji and
    whitespace behind a delimiter removed, and nothing more.
    [logger.error('X Something failed');], X the cross mark, becomes
    [logger.error('Something failed');]. *)
Theorem warn_error_strips_prefixes (line out : str) :
  contains logger_error line || contains logger_warn line = true ->
  clean_logger_line line = Some out ->
  rtc strip_step line (strip_spec line)
  /\ rtc strip_step (strip_spec line) out
  /\ (stacked line = false -> out = strip_spec line)
  /\ clean_logger_line error_line = Some (lit "logger.error('Something failed');").
Proof.
  intros Hw. unfold clean_logger_line. destruct (info_rule line); [discriminate|].
  intros [= <-]. unfold strip_rule. rewrite Hw. split; [|split; [|split]].
  - apply strip_by_steps. intros p Hp. exact Hp.
  - apply loop_from_strip_spec.
  - intros Hst. apply loop_is_strip_spec, Hst.
  - vm_compute. reflexivity.
Qed.

Lemma warn_error_strips_prefixes_witness :
  rtc strip_step error_line (strip_spec error_line)
  /\ rtc strip_step (strip_spec error_line) (lit "logger.error('Something failed');")
  /\ lit "logger.error('Something failed');" = strip_spec error_line.
Proof.
  destruct (warn_error_strips_prefixes error_line
              (lit "logger.error('Something failed');"))
    as (Hspec & Hsteps & Heq & _);
    [vm_compute; reflexivity | vm_compute; reflexivity |].
  split; [exact Hspec | split; [exact Hsteps | apply Heq; vm_compute; reflexivity]].
Defined.

(** C4, as stated, fails: behind the quote of this warn line stand a warning
    sign and a space, then a cross mark and a space.  Only the first pair
    follows a delimiter, so the claim keeps the cross mark; the loop removes
    the warning sign, finds the cross mark behind the quote in a later
    iteration and removes it too. *)
Lemma warn_error_strips_prefixes_counterexample :
  contains logger_error stacked_warn_line || contains logger_warn stacked_warn_line
  = true
  /\ clean_logger_line stacked_warn_line = Some (lit "logger.warn('Validation failed');")
  /\ strip_spec stacked_warn_line
     = lit "logger.warn('" ++ cross_mark ++ lit " Validation failed');"
  /\ clean_logger_line stacked_warn_line <> Some (strip_spec stacked_warn_line).
Proof. vm_compute. repeat split; discriminate. Qed.

(** ** Running the classifier again *)

(** C5: the classifier is not idempotent.  On [stacked_error_line] it keeps
    the line and removes the cross mark only, the warning sign having had its
    iteration before; run again on this result, it removes the warning sign.
    So a second run modifies a line of the cleaned output, and [clean_file]
    run on what it wrote writes something else. *)
Theorem reclean_modifies :
  clean_logger_line stacked_error_line
  = Some (lit "logger.error('" ++ warning_sign ++ lit " Retry failed');")
  /\ clean_logger_line (lit "logger.error('" ++ warning_sign ++ lit " Retry failed');")
     = Some (lit "logger.error('Retry failed');")
  /\ lit "logger.error('Retry failed');"
     <> lit "logger.error('" ++ warning_sign ++ lit " Retry failed');"
  /\ cleaned_lines (clean_file (cleaned_lines (clean_file [stacked_error_line])))
     <> cleaned_lines (clean_file [stacked_error_line]).
Proof. vm_compute. repeat split; discriminate. Qed.

Lemma split_around (d : N) (p pre post x y : str) :
  ~ In d p -> pre ++ d :: post = x ++ p ++ y ->
  (exists y', pre = x ++ p ++ y') \/ (exists x', post = x' ++ p ++ y).
Proof.
  intros Hd H. apply app_eq_inv in H as [[k [-> H]] | [k [-> H]]].
  - apply app_eq_inv in H as [[k' [-> H]] | [k' [-> H]]].
    + destruct k' as [|c k'].
      * left. exists []. rewrite !app_nil_r. reflexivity.
      * injection H as <- _. exfalso. apply Hd. apply in_app_iff. right. left. reflexivity.
    + left. exists k'. reflexivity.
  - destruct k as [|c k].
    + destruct p as [|a p].
      * left. exists []. rewrite !app_nil_r. reflexivity.
      * injection H as <- _. exfalso. apply Hd. left. reflexivity.
    + injection H as _ ->. right. exists k. reflexivity.
Qed.

(** A removal creates no occurrence of a string without delimiter. *)
Lemma strip_step_contains (p a b : str) :
  nodelim p = true -> strip_step a b -> contains p b = true -> contains p a = true.
Proof.
  intros Hp [pre d emoji ws post Hd _ _ _ _] Hb.
  apply contains_spec in Hb as (x & y & Hb). apply contains_spec.
  apply split_around in Hb as [[y' ->] | [x' ->]].
  - exists x, (y' ++ d :: emoji ++ ws ++ post). rewrite <- !app_assoc. reflexivity.
  - exists (pre ++ d :: emoji ++ ws ++ x'), y.
    rewrite <- !app_assoc. cbn [app]. rewrite <- !app_assoc. reflexivity.
  - intros Hin. unfold nodelim in Hp. rewrite forallb_forall in Hp.
    apply Hp in Hin. apply is_delimiter_In in Hd. rewrite Hd in Hin. discriminate.
Qed.

Lemma strip_steps_contains (p a b : str) :
  nodelim p = true -> rtc strip_step a b -> contains p b = true -> contains p a = true.
Proof.
  intros Hp. induction 1 as [|a b c Hab _ IH]; [auto|].
  intros Hc. eapply strip_step_contains; eauto.
Qed.

Lemma existsb_false_all (line : str) :
  existsb (fun emoji => contains emoji line) emojis = false ->
  forall emoji, In emoji emojis -> contains emoji line = false.
Proof.
  intros H e He. destruct (contains e line) eqn:Hc; [|reflexivity].
  rewrite <- H. symmetry. apply existsb_exists. exists e. auto.
Qed.

(** What holds of idempotence: a second run deletes nothing. *)
Lemma reclean_never_deletes (line out : str) :
  clean_logger_line line = Some out -> clean_logger_line out <> None.
Proof.
  unfold clean_logger_line at 1. destruct (info_rule line) eqn:Hi; [discriminate|].
  intros [= <-]. intros Hnone.
  apply clean_None_info_rule, info_rule_true in Hnone as [Hc Hout].
  destruct (contains logger_info line) eqn:Hl.
  - unfold info_rule in Hi. rewrite Hl in Hi.
    destruct (contains triple_eq line) eqn:He; [discriminate|].
    rewrite (strip_rule_absent line (existsb_false_all _ Hi)) in Hout.
    rewrite He in Hout. destruct Hout as [Hout | [e [Hin Hce]]]; [discriminate|].
    rewrite (existsb_false_all _ Hi e Hin) in Hce. discriminate.
  - rewrite (strip_steps_contains logger_info line (strip_rule line)) in Hl;
      [discriminate | vm_compute; reflexivity | apply strip_rule_steps | exact Hc].
Qed.

Lemma refile_removes_nothing (lines : list str) :
  removed_count (clean_file (cleaned_lines (clean_file lines))) = 0.
Proof.
  rewrite !clean_file_eq. cbn [cleaned_lines removed_count].
  unfold deleted. induction lines as [|line lines IH]; [reflexivity|].
  cbn [omap list_omap]. destruct (clean_logger_line line) as [out|] eqn:Hout; [|exact IH].
  cbn [List.filter]. unfold is_deleted at 1.
  pose proof (reclean_never_deletes _ _ Hout) as Hkeep.
  destruct (clean_logger_line out); [exact IH | congruence].
Qed.

Lemma strip_by_ext (ps qs : list (N * str)) (line : str) :
  (forall s, anchored ps s = anchored qs s) -> strip_by ps line = strip_by qs line.
Proof.
  intros Hext. induction line as [line IH] using str_length_ind.
  destruct line as [|c rest]; [simp strip_by; reflexivity|].
  rewrite !strip_by_cons, Hext. f_equal.
  destruct (anchored qs (c :: rest)); apply IH; shorter.
Qed.

(** What holds of idempotence: without stacked prefixes, a second run changes
    nothing. *)
Lemma reclean_unstacked_fixed (line out : str) :
  stacked line = false ->
  clean_logger_line line = Some out -> clean_logger_line out = Some out.
Proof.
  intros Hst Hout. pose proof (reclean_never_deletes _ _ Hout) as Hkeep.
  unfold clean_logger_line in Hkeep |- *.
  destruct (info_rule out); [congruence|]. f_equal.
  unfold clean_logger_line in Hout. destruct (info_rule line); [discriminate|].
  injection Hout as <-.
  destruct (contains logger_error line || contains logger_warn line) eqn:Hw.
  - assert (Hspec : strip_rule line = strip_spec line).
    { unfold strip_rule. rewrite Hw. apply loop_is_strip_spec, Hst. }
    rewrite Hspec. unfold strip_rule.
    destruct (contains logger_error (strip_spec line)
              || contains logger_warn (strip_spec line)); [|reflexivity].
    rewrite fold_strip_emoji_passes. fold passes. unfold strip_spec.
    rewrite fold_strip_by_app; [|intros p Hp; exact Hp..|exact Hst].
    apply strip_by_ext. intros s. rewrite anchored_app.
    destruct (anchored passes s); reflexivity.
  - assert (Hid : strip_rule line = line).
    { unfold strip_rule. rewrite Hw. reflexivity. }
    rewrite Hid. exact Hid.
Qed.

(** * Further properties of the classifier and the file pass *)

(** ** Lines the loop does not change *)

Lemma anchored_None_In (qs : list (N * str)) (s : str) (d : N) (emoji : str) :
  anchored qs s = None -> In (d, emoji) qs -> match_at d emoji s = None.
Proof.
  induction qs as [|[d' e'] qs IH]; [intros _ []|]. cbn [anchored].
  destruct (match_at d' e' s) eqn:Hm; [discriminate|].
  intros Hn [[= <- <-] | Hin]; [exact Hm | apply IH; assumption].
Qed.

Lemma anchored_None_incl (ps : list (N * str)) (s : str) :
  incl ps passes -> anchored passes s = None -> anchored ps s = None.
Proof.
  intros Hps Hn. destruct (anchored ps s) as [n|] eqn:Ha; [|reflexivity].
  apply anchored_inv in Ha as (d & e & Hin & Hm).
  rewrite (anchored_None_In passes s d e Hn (Hps _ Hin)) in Hm. discriminate.
Qed.

Lemma strip_by_fixed (ps : list (N * str)) (line : str) :
  incl ps passes -> has_emoji_prefix line = false -> strip_by ps line = line.
Proof.
  intros Hps. induction line as [|c rest IH]; intros H.
  - rewrite strip_by_equation_1. reflexivity.
  - cbn [has_emoji_prefix] in H. apply orb_false_iff in H as [Hh Ht].
    assert (Hn : anchored passes (c :: rest) = None)
      by (destruct (anchored passes (c :: rest)); [discriminate | reflexivity]).
    rewrite strip_by_cons, (anchored_None_incl ps _ Hps Hn), (IH Ht). reflexivity.
Qed.

Lemma fold_strip_by_fixed (qs : list (N * str)) (line : str) :
  incl qs passes -> has_emoji_prefix line = false ->
  fold_left (fun l p => strip_by [p] l) qs line = line.
Proof.
  intros Hqs H. induction qs as [|q qs IH]; [reflexivity|]. cbn [fold_left].
  rewrite strip_by_fixed; [|intros p [<- | []]; apply Hqs; left; reflexivity|exact H].
  apply IH. intros p Hp. apply Hqs. right. exact Hp.
Qed.

Lemma strip_rule_fixed (line : str) :
  has_emoji_prefix line = false -> strip_rule line = line.
Proof.
  intros H. unfold strip_rule.
  destruct (contains logger_error line || contains logger_warn line); [|reflexivity].
  rewrite fold_strip_emoji_passes. apply fold_strip_by_fixed; [|exact H].
  intros p Hp. exact Hp.
Qed.

(** ** Lines the loop does change *)

Lemma strip_step_shorter (a b : str) : strip_step a b -> length b < length a.
Proof.
  intros [pre d emoji ws post _ _ Hne _ _]. rewrite !length_app. cbn [length].
  rewrite !length_app. destruct ws; [congruence|]. cbn [length]. lia.
Qed.

Lemma strip_steps_length (a b : str) : rtc strip_step a b -> length b <= length a.
Proof.
  induction 1 as [|a b c Hab _ IH]; [reflexivity|].
  apply strip_step_shorter in Hab. lia.
Qed.

Lemma strip_spec_shorter (line : str) :
  has_emoji_prefix line = true -> length (strip_spec line) < length line.
Proof.
  unfold strip_spec. induction line as [|c rest IH]; [discriminate|].
  cbn [has_emoji_prefix]. rewrite strip_by_cons. cbn [length].
  destruct (anchored passes (c :: rest)) as [n|] eqn:Ha.
  - intros _. pose proof (sublist_length _ _ (strip_by_sublist passes (drop n rest))) as Hle.
    rewrite length_drop in Hle.
    apply anchored_inv in Ha as (d & e & _ & Hm).
    apply match_at_split in Hm as (ws & post & _ & -> & _ & Hne & _ & _ & ->).
    rewrite !length_app in *. destruct ws; [congruence|]. cbn [length] in *. lia.
  - cbn [orb]. intros H. specialize (IH H). lia.
Qed.

Lemma strip_rule_shorter (line : str) :
  contains logger_error line || contains logger_warn line = true ->
  has_emoji_prefix line = true ->
  length (strip_rule line) < length line.
Proof.
  intros Hw H. unfold strip_rule. rewrite Hw.
  pose proof (strip_steps_length _ _ (loop_from_strip_spec line)).
  pose proof (strip_spec_shorter line H). lia.
Qed.

(** X1: a line that is kept is changed exactly when it names [logger.error]
    or [logger.warn] and some delimiter in it is directly followed by an
    emoji of the list and whitespace; an emoji anywhere else in the message
    leaves the line as it is.  A line that is changed comes back strictly
    shorter. *)
Theorem changed_iff_emoji_prefix (line out : str) :
  clean_logger_line line = Some out ->
  (out <> line <->
   contains logger_error line || contains logger_warn line = true
   /\ has_emoji_prefix line = true)
  /\ (out <> line -> length out < length line).
Proof.
  unfold clean_logger_line. destruct (info_rule line); [discriminate|].
  intros [= <-].
  assert (Hchar : strip_rule line <> line <->
            contains logger_error line || contains logger_warn line = true
            /\ has_emoji_prefix line = true).
  { split.
    - intros Hne. destruct (has_emoji_prefix line) eqn:Hp.
      + split; [|reflexivity]. unfold strip_rule in Hne.
        destruct (contains logger_error line || contains logger_warn line);
          [reflexivity | congruence].
      + exfalso. apply Hne, strip_rule_fixed, Hp.
    - intros [Hw Hp] Heq. pose proof (strip_rule_shorter line Hw Hp) as Hlt.
      rewrite Heq in Hlt. lia. }
  split; [exact Hchar|].
  intros Hne. apply Hchar in Hne as [Hw Hp]. apply strip_rule_shorter; assumption.
Qed.

Lemma changed_iff_emoji_prefix_witness :
  (lit "logger.warn('retrying');"
   <> lit "logger.warn('" ++ warning_sign ++ lit "  retrying');" <->
   contains logger_error (lit "logger.warn('" ++ warning_sign ++ lit "  retrying');")
   || contains logger_warn (lit "logger.warn('" ++ warning_sign ++ lit "  retrying');")
   = true
   /\ has_emoji_prefix (lit "logger.warn('" ++ warning_sign ++ lit "  retrying');")
      = true)
  /\ (lit "logger.warn('retrying');"
      <> lit "logger.warn('" ++ warning_sign ++ lit "  retrying');" ->
      length (lit "logger.warn('retrying');")
      < length (lit "logger.warn('" ++ warning_sign ++ lit "  retrying');")).
Proof. apply changed_iff_emoji_prefix. vm_compute. reflexivity. Defined.

(** X2: a line with [logger.error] or [logger.warn] whose emoji all stand
    inside the message, none directly behind a delimiter with whitespace
    after it, is returned unchanged (unless the info rule deletes it). *)
Theorem inner_emoji_untouched (line : str) :
  contains logger_info line && contains triple_eq line = false ->
  contains logger_info line
  && existsb (fun emoji => contains emoji line) emojis = false ->
  has_emoji_prefix line = false ->
  clean_logger_line line = Some line.
Proof.
  intros H1 H2 Hp. unfold clean_logger_line, info_rule.
  rewrite (strip_rule_fixed line Hp).
  destruct (contains logger_info line); [|reflexivity].
  cbn [andb] in H1, H2. rewrite H1, H2. reflexivity.
Qed.

Lemma inner_emoji_untouched_witness :
  clean_logger_line (lit "logger.error('Upload failed " ++ cross_mark ++ lit " retry');")
  = Some (lit "logger.error('Upload failed " ++ cross_mark ++ lit " retry');").
Proof. apply inner_emoji_untouched; vm_compute; reflexivity. Defined.

(** ** What a run can remove *)

Lemma emoji_chars_removable (emoji : str) :
  In emoji emojis -> List.filter plain_char emoji = [].
Proof.
  assert (H : forallb (fun e => forallb emoji_char e) emojis = true)
    by (vm_compute; reflexivity).
  intros He. rewrite forallb_forall in H. specialize (H emoji He).
  induction emoji as [|a e IH] in H |- *; [reflexivity|].
  cbn [forallb] in H. apply andb_true_iff in H as [Ha Hrest].
  cbn [List.filter]. unfold plain_char at 1. rewrite Ha, orb_true_r. cbn [negb].
  apply IH, Hrest.
Qed.

Lemma spaces_removable (ws : str) :
  forallb isspace ws = true -> List.filter plain_char ws = [].
Proof.
  induction ws as [|w ws IH]; [reflexivity|]. cbn [forallb]. intros H.
  apply andb_true_iff in H as [Hw Hws].
  cbn [List.filter]. unfold plain_char at 1. rewrite Hw. cbn [orb negb].
  apply IH, Hws.
Qed.

Lemma strip_step_plain (a b : str) :
  strip_step a b -> List.filter plain_char b = List.filter plain_char a.
Proof.
  intros [pre d emoji ws post _ He _ Hws _].
  rewrite !List.filter_app. cbn [List.filter]. rewrite !List.filter_app.
  rewrite (emoji_chars_removable _ He), (spaces_removable _ Hws). reflexivity.
Qed.

(** X3: the only characters a run ever removes are whitespace and code points
    of the emoji list: the other characters of a kept line, among them every
    letter, digit, bracket and quote, come back all and in their order. *)
Theorem plain_chars_kept (line out : str) :
  clean_logger_line line = Some out ->
  List.filter plain_char out = List.filter plain_char line.
Proof.
  unfold clean_logger_line. destruct (info_rule line); [discriminate|].
  intros [= <-]. pose proof (strip_rule_steps line) as H.
  induction H as [|a b c Hab _ IH]; [reflexivity|].
  rewrite IH. apply strip_step_plain, Hab.
Qed.

Lemma plain_chars_kept_witness :
  List.filter plain_char (lit "logger.warn('retrying');")
  = List.filter plain_char (lit "logger.warn('" ++ warning_sign ++ lit "  retrying');").
Proof. apply plain_chars_kept. vm_compute. reflexivity. Defined.

(** ** Substrings across a run *)

Lemma contains_drop_char (p l r : str) (c : N) :
  ~ In c p -> contains p (l ++ c :: r) = true -> contains p (l ++ r) = true.
Proof.
  intros Hc H. apply contains_spec in H as (x & y & H). apply contains_spec.
  apply split_around in H as [[y' ->] | [x' ->]]; [| |exact Hc].
  - exists x, (y' ++ r). rewrite <- !app_assoc. reflexivity.
  - exists (l ++ x'), y. rewrite <- !app_assoc. reflexivity.
Qed.

Lemma contains_drop_chars (p l m r : str) :
  (forall c, In c m -> ~ In c p) ->
  contains p (l ++ m ++ r) = true -> contains p (l ++ r) = true.
Proof.
  induction m as [|c m IH]; intros Hm H; [exact H|].
  apply IH; [intros c' Hc'; apply Hm; right; exact Hc'|].
  apply (contains_drop_char p l (m ++ r) c); [apply Hm; left; reflexivity | exact H].
Qed.

Lemma plain_not_removed (p : str) (emoji ws : str) (c : N) :
  forallb plain_char p = true -> In emoji emojis -> forallb isspace ws = true ->
  In c (emoji ++ ws) -> ~ In c p.
Proof.
  intros Hp He Hws Hc Hin. rewrite forallb_forall in Hp. specialize (Hp c Hin).
  assert (Hf : In c (List.filter plain_char (emoji ++ ws)))
    by (apply List.filter_In; auto).
  rewrite List.filter_app, (emoji_chars_removable _ He), (spaces_removable _ Hws) in Hf.
  destruct Hf.
Qed.

(** A removal destroys no occurrence of a string of plain characters. *)
Lemma strip_step_contains_plain (p a b : str) :
  forallb plain_char p = true -> strip_step a b ->
  contains p a = true -> contains p b = true.
Proof.
  intros Hp [pre d emoji ws post _ He _ Hws _] Ha.
  replace (pre ++ d :: post) with ((pre ++ [d]) ++ post)
    by (rewrite <- app_assoc; reflexivity).
  apply (contains_drop_chars p (pre ++ [d]) (emoji ++ ws) post).
  - intros c Hc. eapply plain_not_removed; eassumption.
  - replace ((pre ++ [d]) ++ (emoji ++ ws) ++ post)
      with (pre ++ d :: emoji ++ ws ++ post); [exact Ha|].
    rewrite <- !app_assoc. reflexivity.
Qed.

Lemma strip_steps_contains_plain (p a b : str) :
  forallb plain_char p = true -> rtc strip_step a b ->
  contains p a = true -> contains p b = true.
Proof.
  intros Hp. induction 1 as [|a b c Hab _ IH]; [auto|].
  intros Ha. apply IH. eapply strip_step_contains_plain; eauto.
Qed.

Lemma strip_rule_contains (p line : str) :
  nodelim p = true -> forallb plain_char p = true ->
  contains p (strip_rule line) = contains p line.
Proof.
  intros Hd Hp. pose proof (strip_rule_steps line) as Hs.
  destruct (contains p line) eqn:Hl.
  - eapply strip_steps_contains_plain; eauto.
  - destruct (contains p (strip_rule line)) eqn:Ho; [|reflexivity].
    rewrite (strip_steps_contains p _ _ Hd Hs Ho) in Hl. discriminate.
Qed.

(** X4: a run neither creates nor destroys an occurrence of a string free of
    delimiters, whitespace and emoji code points.  So a kept line names
    [logger.info], [logger.error], [logger.warn] or [===] after the run
    exactly when it did before: a run never moves a line from one rule to
    another. *)
Theorem markers_invariant (line out : str) :
  clean_logger_line line = Some out ->
  (forall p, nodelim p = true -> forallb plain_char p = true ->
             contains p out = contains p line)
  /\ contains logger_info out = contains logger_info line
  /\ contains logger_error out = contains logger_error line
  /\ contains logger_warn out = contains logger_warn line
  /\ contains triple_eq out = contains triple_eq line.
Proof.
  unfold clean_logger_line. destruct (info_rule line); [discriminate|].
  intros [= <-]. split; [intros p; apply strip_rule_contains|].
  repeat split; apply strip_rule_contains; vm_compute; reflexivity.
Qed.

Lemma markers_invariant_witness :
  contains logger_error (lit "logger.error('Something failed');")
  = contains logger_error error_line.
Proof.
  destruct (markers_invariant error_line (lit "logger.error('Something failed');"))
    as (_ & _ & He & _); [vm_compute; reflexivity | exact He].
Defined.

(** ** The delete decision and surrounding text *)

Lemma contains_embed (p a x y : str) :
  contains p a = true -> contains p (x ++ a ++ y) = true.
Proof.
  intros H. apply contains_spec in H as (u & v & ->). apply contains_spec.
  exists (x ++ u), (v ++ y). rewrite <- !app_assoc. reflexivity.
Qed.

(** X5: the delete decision only grows with the line: text put before or
    behind a line that is deleted, such as indentation, a comment or a second
    statement, gives a line that is deleted too. *)
Theorem deleted_embedded (line before behind : str) :
  clean_logger_line line = None ->
  clean_logger_line (before ++ line ++ behind) = None.
Proof.
  rewrite !clean_None_info_rule, !info_rule_true.
  intros [Hi [He | [e [Hin Hc]]]]; (split; [apply contains_embed, Hi|]).
  - left. apply contains_embed, He.
  - right. exists e. split; [exact Hin | apply contains_embed, Hc].
Qed.

Lemma deleted_embedded_witness :
  clean_logger_line (lit "    " ++ lit "logger.info('=== done ===');"
                     ++ lit " logger.error('late');") = None.
Proof. apply deleted_embedded. vm_compute. reflexivity. Defined.

(** ** What the file pass leaves behind *)

Lemma kept_info_line (line out : str) :
  clean_logger_line line = Some out -> contains logger_info out = true ->
  out = line /\ contains triple_eq out = false
  /\ existsb (fun emoji => contains emoji out) emojis = false.
Proof.
  unfold clean_logger_line. destruct (info_rule line) eqn:Hi; [discriminate|].
  intros [= <-] Hc.
  rewrite strip_rule_contains in Hc by (vm_compute; reflexivity).
  unfold info_rule in Hi. rewrite Hc in Hi.
  destruct (contains triple_eq line) eqn:He; [discriminate|].
  rewrite (strip_rule_absent line (existsb_false_all _ Hi)). auto.
Qed.

Lemma In_omap_clean (lines : list str) (out : str) :
  In out (omap clean_logger_line lines) ->
  exists line, In line lines /\ clean_logger_line line = Some out.
Proof.
  induction lines as [|l lines IH]; [intros []|]. cbn [omap list_omap].
  destruct (clean_logger_line l) as [o|] eqn:Hl.
  - intros [<- | Hin].
    + exists l. split; [left; reflexivity | exact Hl].
    + destruct (IH Hin) as (line & Hin' & Hc). exists line. split; [right|]; assumption.
  - intros Hin. destruct (IH Hin) as (line & Hin' & Hc).
    exists line. split; [right|]; assumption.
Qed.

(** Among the strings handed to [writelines], one that names [logger.info]
    holds neither [===] nor any emoji of the list, and is a string of the
    input as it was. *)
Lemma written_info_lines_clean (lines : list str) (out : str) :
  In out (cleaned_lines (clean_file lines)) ->
  contains logger_info out = true ->
  In out lines
  /\ contains triple_eq out = false
  /\ (forall emoji, In emoji emojis -> contains emoji out = false).
Proof.
  rewrite clean_file_eq. cbn [cleaned_lines]. intros Hin Hc.
  apply In_omap_clean in Hin as (line & Hin & Hl).
  destruct (kept_info_line _ _ Hl Hc) as (-> & He & Hn).
  split; [exact Hin | split; [exact He | apply existsb_false_all, Hn]].
Qed.

(** The loop run on the list it built deletes nothing. *)
Lemma second_pass_deletes_nothing (lines : list str) :
  removed_count (clean_file (cleaned_lines (clean_file lines))) = 0
  /\ length (cleaned_lines (clean_file (cleaned_lines (clean_file lines))))
     = length (cleaned_lines (clean_file lines)).
Proof.
  pose proof (refile_removes_nothing lines) as H0. split; [exact H0|].
  rewrite clean_file_eq in H0. cbn [removed_count] in H0.
  rewrite (clean_file_eq (cleaned_lines _)). cbn [cleaned_lines].
  pose proof (omap_length_deleted (cleaned_lines (clean_file lines))). lia.
Qed.

Lemma omap_clean_fixed (lines : list str) :
  forallb (fun line => negb (stacked line)) lines = true ->
  omap clean_logger_line (omap clean_logger_line lines)
  = omap clean_logger_line lines.
Proof.
  induction lines as [|l lines IH]; [reflexivity|]. cbn [forallb]. intros H.
  apply andb_true_iff in H as [Hl Hrest]. apply negb_true_iff in Hl.
  cbn [omap list_omap]. destruct (clean_logger_line l) as [o|] eqn:Ho; [|apply IH, Hrest].
  cbn [omap list_omap]. rewrite (reclean_unstacked_fixed l o Hl Ho), (IH Hrest).
  reflexivity.
Qed.

(** Without stacked prefixes, the loop run on the list it built returns
    that list and counts no deletion. *)
Lemma clean_file_idempotent_unstacked (lines : list str) :
  forallb (fun line => negb (stacked line)) lines = true ->
  clean_file (cleaned_lines (clean_file lines))
  = mk_pass (cleaned_lines (clean_file lines)) 0.
Proof.
  intros H. pose proof (refile_removes_nothing lines) as H0.
  rewrite (clean_file_eq (cleaned_lines _)) in H0 |- *. cbn [removed_count] in H0.
  rewrite H0. f_equal. rewrite clean_file_eq. cbn [cleaned_lines].
  apply omap_clean_fixed, H.
Qed.

Lemma unmarked_kept (line : str) : marked line = false -> clean_logger_line line = Some line.
Proof.
  unfold marked. intros H. apply orb_false_iff in H as [H Hw].
  apply orb_false_iff in H as [Hi He].
  unfold clean_logger_line, info_rule, strip_rule. rewrite Hi, He, Hw. reflexivity.
Qed.

(** X9: a file in which no line names [logger.info], [logger.error] or
    [logger.warn] is written back line for line, with count 0, whatever emoji
    or [===] its lines hold. *)
Theorem clean_file_unmarked (lines : list str) :
  forallb (fun line => negb (marked line)) lines = true ->
  clean_file lines = mk_pass lines 0.
Proof.
  intros H. rewrite clean_file_eq. unfold deleted.
  induction lines as [|l lines IH]; [reflexivity|]. cbn [forallb] in H.
  apply andb_true_iff in H as [Hl Hrest]. apply negb_true_iff in Hl.
  specialize (IH Hrest). injection IH as IHc IHd.
  cbn [omap list_omap List.filter]. unfold is_deleted at 1.
  rewrite (unmarked_kept l Hl), IHc. cbn [option_ret]. rewrite IHd. reflexivity.
Qed.

Lemma clean_file_unmarked_witness :
  clean_file [lit "// === totals ==="; lit "const icon = '" ++ cross_mark ++ lit " ';"]
  = mk_pass [lit "// === totals ==="; lit "const icon = '" ++ cross_mark ++ lit " ';"] 0.
Proof. apply clean_file_unmarked. vm_compute. reflexivity. Defined.

Lemma deleted_app (a b : list str) : deleted (a ++ b) = deleted a + deleted b.
Proof. unfold deleted. rewrite List.filter_app, length_app. reflexivity. Qed.

(** X10: a file can be passed in pieces: the pass over [a ++ b] writes what
    the pass over [a] writes followed by what the pass over [b] writes, and
    its count is the sum of the two counts. *)
Theorem clean_file_app (a b : list str) :
  clean_file (a ++ b)
  = mk_pass (cleaned_lines (clean_file a) ++ cleaned_lines (clean_file b))
            (removed_count (clean_file a) + removed_count (clean_file b)).
Proof.
  rewrite !clean_file_eq. cbn [cleaned_lines removed_count].
  rewrite omap_app, deleted_app. reflexivity.
Qed.

(** ** Repeated runs *)

Lemma kept_changed_shorter (line out : str) :
  clean_logger_line line = Some out -> out <> line -> length out < length line.
Proof.
  unfold clean_logger_line. destruct (info_rule line); [discriminate|].
  intros [= <-] Hne.
  destruct (has_emoji_prefix line) eqn:Hp;
    [|exfalso; apply Hne, strip_rule_fixed, Hp].
  apply strip_rule_shorter; [|exact Hp]. unfold strip_rule in Hne.
  destruct (contains logger_error line || contains logger_warn line);
    [reflexivity | congruence].
Qed.

Lemma reclean_fixed (n : nat) (line : str) :
  clean_logger_line line = Some line -> reclean n line = Some line.
Proof.
  intros H. induction n as [|n IH]; [reflexivity|]. cbn [reclean]. rewrite H. exact IH.
Qed.

Lemma reclean_reaches_fixed (n : nat) (line : str) :
  length line <= n -> clean_logger_line line <> None ->
  exists r, reclean n line = Some r /\ clean_logger_line r = Some r
            /\ rtc strip_step line r.
Proof.
  revert line. induction n as [|n IH]; intros line Hlen Hkeep.
  - destruct line; [|simpl in Hlen; lia]. exists []. repeat split; reflexivity.
  - destruct (clean_logger_line line) as [out|] eqn:Hout; [|congruence].
    assert (Hsteps : rtc strip_step line out).
    { unfold clean_logger_line in Hout. destruct (info_rule line); [discriminate|].
      injection Hout as <-. apply strip_rule_steps. }
    destruct (decide (out = line)) as [-> | Hne].
    + exists line. repeat split; [apply reclean_fixed, Hout | exact Hout | reflexivity].
    + pose proof (kept_changed_shorter _ _ Hout Hne) as Hlt.
      destruct (IH out) as (r & Hr & Hfix & Hor);
        [lia | eapply reclean_never_deletes, Hout |].
      exists r. cbn [reclean]. rewrite Hout.
      repeat split; [exact Hr | exact Hfix | etransitivity; eassumption].
Qed.

Lemma fixed_no_prefix (r : str) :
  clean_logger_line r = Some r ->
  contains logger_error r || contains logger_warn r = true ->
  has_emoji_prefix r = false.
Proof.
  intros Hfix Hw. destruct (has_emoji_prefix r) eqn:Hp; [|reflexivity].
  pose proof (strip_rule_shorter r Hw Hp) as Hlt.
  unfold clean_logger_line in Hfix. destruct (info_rule r); [discriminate|].
  injection Hfix as Hfix. rewrite Hfix in Hlt. lia.
Qed.

Lemma strip_steps_warn_error (a b : str) :
  rtc strip_step a b ->
  contains logger_error b || contains logger_warn b
  = contains logger_error a || contains logger_warn a.
Proof.
  intros Hs.
  assert (H : forall p, nodelim p = true -> forallb plain_char p = true ->
                        contains p b = contains p a).
  { intros p Hd Hp. destruct (contains p a) eqn:Ha.
    - eapply strip_steps_contains_plain; eauto.
    - destruct (contains p b) eqn:Hb; [|reflexivity].
      rewrite (strip_steps_contains p _ _ Hd Hs Hb) in Ha. discriminate. }
  rewrite !H by (vm_compute; reflexivity). reflexivity.
Qed.

(** X11: run again and again on its own result, the classifier settles: after
    at most as many runs as a kept line has characters, a further run returns
    its input unchanged.  The line reached comes from the first by removals
    of emoji prefixes only, and when the line names [logger.error] or
    [logger.warn], no delimiter in it is followed by an emoji of the list and
    whitespace any more. *)
Theorem reclean_settles (line : str) :
  clean_logger_line line <> None ->
  exists r,
    reclean (length line) line = Some r
    /\ clean_logger_line r = Some r
    /\ rtc strip_step line r
    /\ (contains logger_error line || contains logger_warn line = true ->
        has_emoji_prefix r = false).
Proof.
  intros Hkeep.
  destruct (reclean_reaches_fixed (length line) line (le_n _) Hkeep)
    as (r & Hr & Hfix & Hs).
  exists r. repeat split; try assumption.
  intros Hw. apply fixed_no_prefix; [exact Hfix|].
  rewrite (strip_steps_warn_error _ _ Hs). exact Hw.
Qed.

Lemma reclean_settles_witness :
  exists r,
    reclean (length stacked_error_line) stacked_error_line = Some r
    /\ clean_logger_line r = Some r
    /\ rtc strip_step stacked_error_line r
    /\ (contains logger_error stacked_error_line
        || contains logger_warn stacked_error_line = true ->
        has_emoji_prefix r = false).
Proof. apply reclean_settles. vm_compute. discriminate. Defined.

(** X12: one run is enough when no prefixes are stacked: a kept line with
    [logger.error] or [logger.warn] and without stacked prefixes comes back
    with no delimiter followed by an emoji of the list and whitespace. *)
Theorem unstacked_prefixes_gone (line out : str) :
  contains logger_error line || contains logger_warn line = true ->
  stacked line = false ->
  clean_logger_line line = Some out ->
  has_emoji_prefix out = false.
Proof.
  intros Hw Hst Hout. apply fixed_no_prefix.
  - eapply reclean_unstacked_fixed; eassumption.
  - rewrite <- Hw. apply strip_steps_warn_error.
    unfold clean_logger_line in Hout. destruct (info_rule line); [discriminate|].
    injection Hout as <-. apply strip_rule_steps.
Qed.

Lemma unstacked_prefixes_gone_witness :
  has_emoji_prefix (lit "logger.error('Something failed');") = false.
Proof.
  apply (unstacked_prefixes_gone error_line); vm_compute; reflexivity.
Defined.

(** ** The two ends of a line *)

Lemma emoji_starts_visible (emoji ws post t : str) :
  In emoji emojis -> forallb isspace t = true -> emoji ++ ws ++ post <> t.
Proof.
  assert (H : forallb (fun e => match e with
                                | [] => false
                                | a :: _ => negb (isspace a)
                                end) emojis = true) by (vm_compute; reflexivity).
  intros He Ht Heq. rewrite forallb_forall in H. specialize (H emoji He).
  destruct emoji as [|a e]; [discriminate|]. subst t. cbn [app forallb] in Ht.
  apply andb_true_iff in Ht as [Ha _]. rewrite Ha in H. discriminate.
Qed.

Lemma strip_step_tail (a b u t : str) (c : N) :
  strip_step a b -> a = u ++ c :: t ->
  plain_char c = true -> forallb isspace t = true ->
  exists u', b = u' ++ c :: t.
Proof.
  intros [pre d emoji ws post Hd He _ Hws _] Ha Hc Ht.
  assert (Hdt : ~ In d t).
  { intros Hin. rewrite forallb_forall in Ht. specialize (Ht d Hin).
    rewrite (delimiter_not_space d Hd) in Ht. discriminate. }
  apply app_eq_inv in Ha as [[k [-> Hk]] | [k [-> Hk]]].
  - destruct k as [|c' k].
    + injection Hk as <- Hm. exfalso. symmetry in Hm.
      apply (emoji_starts_visible emoji ws post t He Ht). exact Hm.
    + injection Hk as <- ->. exfalso. apply Hdt, in_app_iff. right. left. reflexivity.
  - destruct k as [|d' k].
    + injection Hk as <- Hm. exfalso.
      apply (emoji_starts_visible emoji ws post t He Ht). exact Hm.
    + injection Hk as <- Hm. rewrite app_assoc in Hm.
      apply app_eq_inv in Hm as [[k2 [Hm Hpost]] | [k2 [_ Hpost]]].
      * destruct k2 as [|c' k2].
        -- cbn [app] in Hpost. subst post. exists (pre ++ [d]).
           rewrite <- app_assoc. reflexivity.
        -- injection Hpost as <- _. exfalso.
           apply (plain_not_removed [c] emoji ws c); try assumption.
           ++ cbn [forallb]. rewrite Hc. reflexivity.
           ++ rewrite Hm. apply in_app_iff. right. left. reflexivity.
           ++ left. reflexivity.
      * exists (pre ++ d :: k2). rewrite Hpost, <- app_assoc. reflexivity.
Qed.

(** X13: a kept line keeps its ending: when its last character that is
    neither whitespace nor an emoji code point is followed by whitespace
    only, the result ends in that character and the same whitespace, the line
    feed included. *)
Theorem line_ending_kept (line out body tail : str) (c : N) :
  clean_logger_line line = Some out ->
  line = body ++ c :: tail ->
  plain_char c = true -> forallb isspace tail = true ->
  exists body', out = body' ++ c :: tail.
Proof.
  unfold clean_logger_line. destruct (info_rule line); [discriminate|].
  intros [= <-] Hline Hc Ht. pose proof (strip_rule_steps line) as Hs.
  revert body Hline. induction Hs as [a|a b r Hab _ IH]; intros body Hline.
  - exists body. exact Hline.
  - destruct (strip_step_tail _ _ _ _ _ Hab Hline Hc Ht) as [u' Hb].
    apply (IH u' Hb).
Qed.

Lemma line_ending_kept_witness :
  exists body',
    lit "logger.error('Something failed');" ++ [10%N]
    = body' ++ 59%N :: [10%N].
Proof.
  apply (line_ending_kept (error_line ++ [10%N]) _
           (lit "logger.error('" ++ cross_mark ++ lit " Something failed')"));
    vm_compute; reflexivity.
Defined.

Lemma strip_step_head_kept (a b ind rest : str) :
  strip_step a b -> a = ind ++ rest -> nodelim ind = true ->
  exists rest', b = ind ++ rest'.
Proof.
  intros [pre d emoji ws post Hd _ _ _ _] Ha Hind.
  apply app_eq_inv in Ha as [[k [-> Hk]] | [k [-> Hk]]].
  - exists (k ++ d :: post). rewrite <- app_assoc. reflexivity.
  - destruct k as [|d' k].
    + exists (d :: post). rewrite app_nil_r. reflexivity.
    + exfalso. injection Hk as <- _. unfold nodelim in Hind.
      rewrite forallb_app in Hind. apply andb_true_iff in Hind as [_ Hk].
      cbn [forallb] in Hk. apply is_delimiter_In in Hd. rewrite Hd in Hk. discriminate.
Qed.

(** X14: a kept line keeps its beginning: the indentation and all the text in
    front of the first backtick or quote come back as they are. *)
Theorem line_start_kept (line out ind rest : str) :
  clean_logger_line line = Some out ->
  line = ind ++ rest -> nodelim ind = true ->
  exists rest', out = ind ++ rest'.
Proof.
  unfold clean_logger_line. destruct (info_rule line); [discriminate|].
  intros [= <-] Hline Hind. pose proof (strip_rule_steps line) as Hs.
  revert rest Hline. induction Hs as [a|a b r Hab _ IH]; intros rest Hline.
  - exists rest. exact Hline.
  - destruct (strip_step_head_kept _ _ _ _ Hab Hline Hind) as [rest' Hb].
    apply (IH rest' Hb).
Qed.

Lemma line_start_kept_witness :
  exists rest',
    lit "    logger.warn('retrying');" = lit "    logger.warn(" ++ rest'.
Proof.
  apply (line_start_kept
           (lit "    logger.warn('" ++ warning_sign ++ lit "  retrying');") _ _
           (lit "'" ++ warning_sign ++ lit "  retrying');"));
    vm_compute; reflexivity.
Defined.

(** * The file pass on the text of the files *)

(** ** Reading and writing *)

Lemma universal_no_cr (text : str) : ~ In carriage_return (universal text).
Proof.
  induction text as [text IH] using str_length_ind.
  destruct text as [|c t]; [intros []|]. cbn [universal].
  destruct (N.eqb c carriage_return) eqn:Hc.
  - intros [Heq | Hin]; [vm_compute in Heq; discriminate|].
    destruct t as [|d t']; [destruct Hin|].
    destruct (N.eqb d line_feed); revert Hin; apply IH; simpl; lia.
  - intros [Heq | Hin]; [subst c; rewrite N.eqb_refl in Hc; discriminate|].
    revert Hin. apply IH. simpl. lia.
Qed.

Lemma universal_id (text : str) : ~ In carriage_return text -> universal text = text.
Proof.
  induction text as [|c t IH]; [reflexivity|]. intros H. cbn [universal].
  destruct (N.eqb c carriage_return) eqn:Hc.
  - apply N.eqb_eq in Hc. exfalso. apply H. left. exact Hc.
  - rewrite IH; [reflexivity|]. intros Hin. apply H. right. exact Hin.
Qed.

Lemma concat_split_lines (text : str) : concat (split_lines text) = text.
Proof.
  induction text as [|c t IH]; [reflexivity|]. cbn [split_lines].
  destruct (N.eqb c line_feed).
  - cbn [concat app]. rewrite IH. reflexivity.
  - destruct (split_lines t) as [|l ls]; cbn [concat app] in *; rewrite <- IH; reflexivity.
Qed.

Lemma lf_count_app (a b : str) : lf_count (a ++ b) = lf_count a + lf_count b.
Proof. unfold lf_count. rewrite List.filter_app, length_app. reflexivity. Qed.

Lemma lf_count_cons (c : N) (l : str) :
  lf_count (c :: l) = (if N.eqb line_feed c then 1 else 0) + lf_count l.
Proof. unfold lf_count. cbn [List.filter]. destruct (N.eqb line_feed c); reflexivity. Qed.

Lemma split_lines_full (body rest : str) :
  lf_count body = 0 ->
  split_lines (body ++ line_feed :: rest) = (body ++ [line_feed]) :: split_lines rest.
Proof.
  induction body as [|c b IH]; intros H; [reflexivity|].
  rewrite lf_count_cons in H. cbn [app split_lines].
  destruct (N.eqb c line_feed) eqn:Hc.
  - apply N.eqb_eq in Hc. subst c. rewrite N.eqb_refl in H. discriminate.
  - rewrite IH; [reflexivity|]. lia.
Qed.

Lemma split_lines_part (l : str) :
  part_line l = true -> split_lines l = [l].
Proof.
  induction l as [|c t IH]; [discriminate|]. cbn [part_line]. intros H.
  apply Nat.eqb_eq in H. rewrite lf_count_cons in H. cbn [split_lines].
  destruct (N.eqb c line_feed) eqn:Hc.
  - apply N.eqb_eq in Hc. subst c. rewrite N.eqb_refl in H. discriminate.
  - destruct t as [|c' t']; [reflexivity|].
    rewrite IH; [reflexivity|]. cbn [part_line]. apply Nat.eqb_eq. lia.
Qed.

Lemma ends_lf_split (l : str) :
  ends_lf l = true -> exists body, l = body ++ [line_feed].
Proof.
  unfold ends_lf. destruct (last l) as [c|] eqn:Hl; [|discriminate].
  intros Hc. apply N.eqb_eq in Hc. subst c. apply last_Some in Hl. exact Hl.
Qed.

Lemma full_line_split (l : str) :
  full_line l = true -> exists body, l = body ++ [line_feed] /\ lf_count body = 0.
Proof.
  unfold full_line. intros H. apply andb_true_iff in H as [He Hc].
  apply ends_lf_split in He as [body ->]. exists body. split; [reflexivity|].
  apply Nat.eqb_eq in Hc. rewrite lf_count_app in Hc. cbn in Hc. lia.
Qed.

(** Lines that are written come back as they are when the text is read. *)
Lemma split_lines_concat (ls : list str) :
  lines_ok ls = true -> split_lines (concat ls) = ls.
Proof.
  induction ls as [|l ls IH]; [reflexivity|]. cbn [lines_ok]. intros H.
  apply andb_true_iff in H as [Hl Hls]. cbn [concat].
  apply orb_true_iff in Hl as [Hf | Hp].
  - apply full_line_split in Hf as (body & -> & Hb).
    rewrite <- app_assoc. cbn [app]. rewrite split_lines_full, (IH Hls) by exact Hb.
    reflexivity.
  - apply andb_true_iff in Hp as [Hp Hnil]. destruct ls; [|discriminate].
    cbn [concat]. rewrite app_nil_r. apply split_lines_part, Hp.
Qed.

Lemma ends_lf_cons (c : N) (l : str) : l <> [] -> ends_lf (c :: l) = ends_lf l.
Proof. unfold ends_lf. destruct l; [congruence|reflexivity]. Qed.

Lemma split_lines_ok (text : str) : lines_ok (split_lines text) = true.
Proof.
  induction text as [|c t IH]; [reflexivity|]. cbn [split_lines].
  destruct (N.eqb c line_feed) eqn:Hc.
  - apply N.eqb_eq in Hc. subst c. cbn [lines_ok]. rewrite IH. reflexivity.
  - destruct (split_lines t) as [|l ls].
    { cbn [lines_ok part_line]. rewrite lf_count_cons, N.eqb_sym, Hc.
      rewrite orb_true_r. reflexivity. }
    cbn [lines_ok] in IH |- *. apply andb_true_iff in IH as [Hl Hls]. rewrite Hls, andb_true_r.
    assert (Hcount : lf_count (c :: l) = lf_count l).
    { rewrite lf_count_cons, N.eqb_sym, Hc. reflexivity. }
    apply orb_true_iff in Hl as [Hf | Hp]; apply orb_true_iff; [left | right].
    + unfold full_line in *. rewrite Hcount. apply andb_true_iff in Hf as [He Hn].
      rewrite ends_lf_cons, He, Hn; [reflexivity|]. intros ->. discriminate.
    + apply andb_true_iff in Hp as [Hp Hnil]. rewrite Hnil, andb_true_r.
      cbn [part_line]. rewrite Hcount. destruct l; [discriminate | exact Hp].
Qed.

(** ** What is written, read again *)

Lemma sublist_In (a b : str) (c : N) : sublist a b -> In c a -> In c b.
Proof.
  induction 1 as [|x a b _ IH|x a b _ IH]; [intros []| |].
  - intros [<- | Hin]; [left; reflexivity | right; apply IH, Hin].
  - intros Hin. right. apply IH, Hin.
Qed.

Lemma sublist_lf_count (a b : str) : sublist a b -> lf_count a <= lf_count b.
Proof.
  induction 1 as [|x a b _ IH|x a b _ IH]; [reflexivity| |];
    rewrite ?lf_count_cons; lia.
Qed.

Lemma kept_steps (line out : str) :
  clean_logger_line line = Some out -> rtc strip_step line out.
Proof.
  unfold clean_logger_line. destruct (info_rule line); [discriminate|].
  intros [= <-]. apply strip_rule_steps.
Qed.

Lemma kept_sublist (line out : str) :
  clean_logger_line line = Some out -> sublist out line.
Proof.
  unfold clean_logger_line. destruct (info_rule line); [discriminate|].
  intros [= <-]. apply strip_rule_sublist.
Qed.

Lemma strip_steps_nonempty (a b : str) : rtc strip_step a b -> a <> [] -> b <> [].
Proof.
  induction 1 as [|a b c Hab _ IH]; [auto|]. intros _. apply IH.
  destruct Hab as [pre d emoji ws post _ _ _ _ _]. destruct pre; discriminate.
Qed.

Lemma kept_full_line (line out : str) :
  clean_logger_line line = Some out -> keeps_line_feed line = true ->
  full_line line = true -> full_line out = true.
Proof.
  intros Hout Hk Hf. unfold keeps_line_feed in Hk. rewrite Hout in Hk.
  apply Bool.eqb_prop in Hk. unfold full_line in *.
  apply andb_true_iff in Hf as [He Hc]. apply Nat.eqb_eq in Hc.
  rewrite Hk, He. cbn [andb]. apply Nat.eqb_eq.
  pose proof (sublist_lf_count _ _ (kept_sublist _ _ Hout)) as Hle.
  rewrite <- Hk in He. apply ends_lf_split in He as [body Hb].
  rewrite Hb, lf_count_app in Hle |- *. cbn in Hle |- *. lia.
Qed.

Lemma kept_part_line (line out : str) :
  clean_logger_line line = Some out -> part_line line = true -> part_line out = true.
Proof.
  intros Hout Hp.
  assert (Hne : out <> []).
  { apply (strip_steps_nonempty line); [apply kept_steps, Hout|].
    intros ->. discriminate. }
  pose proof (sublist_lf_count _ _ (kept_sublist _ _ Hout)) as Hle.
  destruct line as [|c l]; [discriminate|]. cbn [part_line] in Hp.
  apply Nat.eqb_eq in Hp. destruct out as [|o out]; [congruence|].
  cbn [part_line]. apply Nat.eqb_eq. lia.
Qed.

(** When no kept line loses its line feed, the strings written are again a
    text in lines. *)
Lemma cleaned_lines_ok (lines : list str) :
  lines_ok lines = true -> forallb keeps_line_feed lines = true ->
  lines_ok (omap clean_logger_line lines) = true.
Proof.
  induction lines as [|l ls IH]; [reflexivity|]. cbn [lines_ok forallb].
  intros Hok Hk. apply andb_true_iff in Hok as [Hl Hls].
  apply andb_true_iff in Hk as [Hkl Hkls]. specialize (IH Hls Hkls).
  cbn [omap list_omap]. destruct (clean_logger_line l) as [out|] eqn:Hout; [|exact IH].
  cbn [lines_ok]. rewrite IH, andb_true_r.
  apply orb_true_iff in Hl as [Hf | Hp].
  - rewrite (kept_full_line _ _ Hout Hkl Hf). reflexivity.
  - apply andb_true_iff in Hp as [Hp Hnil]. destruct ls; [|discriminate].
    cbn [omap list_omap]. rewrite (kept_part_line _ _ Hout Hp). apply orb_true_r.
Qed.

Lemma readlines_ok (raw : str) : lines_ok (readlines raw) = true.
Proof. apply split_lines_ok. Qed.

Lemma readlines_no_cr (raw line : str) :
  In line (readlines raw) -> ~ In carriage_return line.
Proof.
  intros Hin Hc. apply (universal_no_cr raw).
  rewrite <- (concat_split_lines (universal raw)). apply in_concat.
  exists line. split; assumption.
Qed.

(** The text written holds no carriage return, so reading it again only cuts
    it into lines. *)
Lemma written_no_cr (raw : str) :
  ~ In carriage_return (writelines (cleaned_lines (clean_file (readlines raw)))).
Proof.
  rewrite clean_file_eq. cbn [cleaned_lines]. unfold writelines. intros Hin.
  apply in_concat in Hin as (out & Hout & Hc).
  apply In_omap_clean in Hout as (line & Hline & Hclean).
  apply (readlines_no_cr raw line Hline).
  apply (sublist_In out line); [apply kept_sublist, Hclean | exact Hc].
Qed.

Lemma reread_written (raw : str) :
  forallb keeps_line_feed (readlines raw) = true ->
  readlines (writelines (cleaned_lines (clean_file (readlines raw))))
  = cleaned_lines (clean_file (readlines raw)).
Proof.
  intros Hk. unfold readlines at 1. rewrite (universal_id _ (written_no_cr raw)).
  unfold writelines. apply split_lines_concat.
  rewrite clean_file_eq. cbn [cleaned_lines].
  apply cleaned_lines_ok; [apply readlines_ok | exact Hk].
Qed.

(** ** The number of lines of the output file *)




Lemma ends_lf_tail (u : str) (c : N) (t : str) : ends_lf (u ++ c :: t) = ends_lf (c :: t).
Proof.
  induction u as [|x u IH]; [reflexivity|]. cbn [app].
  rewrite ends_lf_cons; [exact IH | destruct u; discriminate].
Qed.

Lemma strip_steps_tail (a b u t : str) (c : N) :
  rtc strip_step a b -> a = u ++ c :: t ->
  plain_char c = true -> forallb isspace t = true ->
  exists u', b = u' ++ c :: t.
Proof.
  intros Hs Ha Hc Ht. revert u Ha. induction Hs as [a|a b r Hab _ IH]; intros u Ha.
  - exists u. exact Ha.
  - destruct (strip_step_tail _ _ _ _ _ Hab Ha Hc Ht) as [u' Hb]. apply (IH u' Hb).
Qed.

(** The line feed is lost only behind an emoji: a line whose last character
    that is neither whitespace nor an emoji code point is followed by
    whitespace only keeps it. *)
Lemma plain_end_keeps_line_feed (line body tail : str) (c : N) :
  line = body ++ c :: tail -> plain_char c = true -> forallb isspace tail = true ->
  keeps_line_feed line = true.
Proof.
  intros Hline Hc Ht. unfold keeps_line_feed.
  destruct (clean_logger_line line) as [out|] eqn:Hout; [|reflexivity].
  destruct (strip_steps_tail _ _ _ _ _ (kept_steps _ _ Hout) Hline Hc Ht)
    as [body' ->].
  rewrite Hline, !ends_lf_tail.
  destruct (ends_lf (c :: tail)); reflexivity.
Qed.

(** ** The lines of the output file *)

(** X6: what the script is for: when no kept line loses its line feed, a
    line of the file written that names [logger.info] holds neither [===]
    nor any emoji of the list, and is a line of the file read, as it was. *)
Theorem written_file_info_lines_clean (raw out : str) :
  forallb keeps_line_feed (readlines raw) = true ->
  In out (readlines (writelines (cleaned_lines (clean_file (readlines raw))))) ->
  contains logger_info out = true ->
  In out (readlines raw)
  /\ contains triple_eq out = false
  /\ (forall emoji, In emoji emojis -> contains emoji out = false).
Proof.
  intros Hk. rewrite (reread_written raw Hk). apply written_info_lines_clean.
Qed.

Lemma written_file_info_lines_clean_witness :
  In (lit "logger.info('ready');" ++ [line_feed])
     (readlines (lit "logger.info('=== boot ===');" ++ [line_feed]
                 ++ lit "logger.info('ready');" ++ [line_feed]))
  /\ contains triple_eq (lit "logger.info('ready');" ++ [line_feed]) = false.
Proof.
  destruct (written_file_info_lines_clean
              (lit "logger.info('=== boot ===');" ++ [line_feed]
               ++ lit "logger.info('ready');" ++ [line_feed])
              (lit "logger.info('ready');" ++ [line_feed])) as (Hin & He & _).
  - vm_compute. reflexivity.
  - vm_compute. left. reflexivity.
  - vm_compute. reflexivity.
  - split; [exact Hin | exact He].
Defined.

(** X7: when no kept line loses its line feed, a second run of [clean_file]
    on the file the first run wrote deletes nothing: its count is 0 and it
    writes as many lines as it reads. *)
Theorem second_run_deletes_nothing (raw : str) :
  forallb keeps_line_feed (readlines raw) = true ->
  removed_count
    (clean_file (readlines (writelines (cleaned_lines (clean_file (readlines raw))))))
  = 0
  /\ length (cleaned_lines
       (clean_file (readlines (writelines (cleaned_lines (clean_file (readlines raw)))))))
     = length (readlines (writelines (cleaned_lines (clean_file (readlines raw))))).
Proof.
  intros Hk. rewrite (reread_written raw Hk). apply second_pass_deletes_nothing.
Qed.

Lemma second_run_deletes_nothing_witness :
  removed_count
    (clean_file (readlines (writelines (cleaned_lines (clean_file (readlines
       (lit "logger.info('=== boot ===');" ++ [line_feed]
        ++ stacked_error_line ++ [line_feed])))))))
  = 0.
Proof.
  destruct (second_run_deletes_nothing
              (lit "logger.info('=== boot ===');" ++ [line_feed]
               ++ stacked_error_line ++ [line_feed])) as [H0 _];
    [vm_compute; reflexivity | exact H0].
Defined.

(** X8: on a file in which no line has stacked prefixes and no kept line
    loses its line feed, the pass is idempotent: run on the file it wrote,
    [clean_file] writes the same text and counts no deletion. *)
Theorem clean_file_rerun_unstacked (raw : str) :
  forallb keeps_line_feed (readlines raw) = true ->
  forallb (fun line => negb (stacked line)) (readlines raw) = true ->
  writelines (cleaned_lines
    (clean_file (readlines (writelines (cleaned_lines (clean_file (readlines raw)))))))
  = writelines (cleaned_lines (clean_file (readlines raw)))
  /\ removed_count
       (clean_file (readlines (writelines (cleaned_lines (clean_file (readlines raw))))))
     = 0.
Proof.
  intros Hk Hst. rewrite (reread_written raw Hk).
  rewrite (clean_file_idempotent_unstacked _ Hst). split; reflexivity.
Qed.

Lemma clean_file_rerun_unstacked_witness :
  writelines (cleaned_lines
    (clean_file (readlines (writelines (cleaned_lines (clean_file (readlines
       (error_line ++ [line_feed] ++ info_warn_line ++ [line_feed]))))))))
  = writelines (cleaned_lines (clean_file (readlines
       (error_line ++ [line_feed] ++ info_warn_line ++ [line_feed])))).
Proof.
  destruct (clean_file_rerun_unstacked
              (error_line ++ [line_feed] ++ info_warn_line ++ [line_feed]))
    as [Hw _]; [vm_compute; reflexivity | vm_compute; reflexivity | exact Hw].
Defined.
